(** * MediSupply video processor: the processing pipeline and its stores

    A shallow embedding of [app/services/video_processor_service.py],
    [app/services/cloud_storage_service.py] and [app/config/settings.py].

    Python text is [string]; [Optional[str]] columns are [option string];
    integers are [Z].  Everything outside the repository (the SQLAlchemy
    session, the Cloud Storage client, moviepy, the file system) is an
    environment whose answers may depend on everything that happened so
    far; the services are written in a state-and-exception monad over
    the world those collaborators act on. *)

From Stdlib Require Import ZArith Ascii DecimalString.
From stdpp Require Import gmap strings list fin_maps.

Open Scope Z_scope.

(* ===================================================================== *)
(** ** [os.path.splitext] (posixpath, through [genericpath._splitext])    *)
(* ===================================================================== *)

Module PosixPath.

Definition sep : Ascii.ascii := "/"%char.
Definition extsep : Ascii.ascii := "."%char.

(** [p.rfind(c)] for a one-character [c]: the highest index holding [c],
    or [-1].  [i] is the index of the head of [s], [last] the best index
    seen so far. *)
Fixpoint rfind_from (c : Ascii.ascii) (s : string) (i last : Z) : Z :=
  match s with
  | EmptyString => last
  | String a s' => rfind_from c s' (i + 1) (if Ascii.eqb a c then i else last)
  end.

Definition rfind (c : Ascii.ascii) (p : string) : Z := rfind_from c p 0 (-1).

(** [p[:k]] and [p[k:]] for [0 <= k]. *)
Definition slice_to (p : string) (k : Z) : string :=
  String.substring 0 (Z.to_nat k) p.

Definition slice_from (p : string) (k : Z) : string :=
  String.substring (Z.to_nat k) (String.length p - Z.to_nat k) p.

(** [p[i:i+1] != extsep] *)
Definition not_extsep_at (p : string) (i : Z) : bool :=
  negb (String.eqb (String.substring (Z.to_nat i) 1 p) (String extsep EmptyString)).

(** The loop [while filenameIndex < dotIndex: ...] of [_splitext]; [n] is
    [dotIndex - filenameIndex], the number of iterations left.  [true]
    is the [return p[:dotIndex], p[dotIndex:]] inside the loop, [false]
    is falling out of it. *)
Fixpoint skip_leading_dots (p : string) (filenameIndex : Z) (n : nat) : bool :=
  match n with
  | O => false
  | S n' =>
      if not_extsep_at p filenameIndex then true
      else skip_leading_dots p (filenameIndex + 1) n'
  end.

Definition splitext (p : string) : string * string :=
  let sepIndex := rfind sep p in
  let dotIndex := rfind extsep p in
  if (dotIndex >? sepIndex)
     && skip_leading_dots p (sepIndex + 1) (Z.to_nat (dotIndex - (sepIndex + 1)))
  then (slice_to p dotIndex, slice_from p dotIndex)
  else (p, EmptyString).

End PosixPath.

(** [VideoProcessorService._generate_processed_filename] *)
Definition _generate_processed_filename (original_filename : string) : string :=
  let name_without_ext := fst (PosixPath.splitext original_filename) in
  name_without_ext +:+ "_processed.mp4".

(** The naming rule in the words of the specification: the extension is
    what follows the last ['.'] of the final path segment; it is removed
    together with that dot, and the suffix is appended. *)
Module NamingRule.

Definition final_segment (p : string) : string :=
  PosixPath.slice_from p (PosixPath.rfind PosixPath.sep p + 1).

Definition directory_part (p : string) : string :=
  PosixPath.slice_to p (PosixPath.rfind PosixPath.sep p + 1).

Definition stripLastExtension (p : string) : string :=
  let seg := final_segment p in
  let d := PosixPath.rfind PosixPath.extsep seg in
  if d <? 0 then p else directory_part p +:+ PosixPath.slice_to seg d.

Definition deriveName (p : string) : string :=
  stripLastExtension p +:+ "_processed.mp4".

Fixpoint all_extsep (s : string) : bool :=
  match s with
  | EmptyString => true
  | String a s' => Ascii.eqb a PosixPath.extsep && all_extsep s'
  end.

(** The final path segment has a ['.'], and nothing but dots before its
    last one: [".mp4"], ["dir/..name"]. *)
Definition only_leading_dots (p : string) : bool :=
  let seg := final_segment p in
  let d := PosixPath.rfind PosixPath.extsep seg in
  (0 <=? d) && all_extsep (PosixPath.slice_to seg d).

End NamingRule.

(* ===================================================================== *)
(** ** Exceptions, configuration and the persisted row                    *)
(* ===================================================================== *)

(** The [except] clauses of the services tell [GoogleCloudError] from
    every other [Exception]; nothing else of an exception is inspected
    but the text [str(e)]. *)
Inductive ExnClass := GoogleCloudErrorClass | AttributeErrorClass | ExceptionClass.

Record Exn := mkExn { exn_class : ExnClass; str : string }.

Definition Exception (msg : string) : Exn := mkExn ExceptionClass msg.

Definition is_GoogleCloudError (e : Exn) : bool :=
  match exn_class e with GoogleCloudErrorClass => true | _ => false end.

Abbreviation bytes := (list Byte.byte).

(** [app/config/settings.py], the attributes the services read.  An
    attribute a configuration object does not have is [None] here, and
    reading it raises [AttributeError]. *)
Record Config := mkConfig {
  BUCKET_NAME : string;
  BUCKET_FOLDER : string;
  SIGNING_SERVICE_ACCOUNT_EMAIL : string;
  MAX_CONTENT_LENGTH : Z;
  BUCKET_FOLDER_VIDEOS : option string
}.

(** [class Config] of [settings.py]: whatever the process environment
    holds, the class defines these four storage attributes and no
    [BUCKET_FOLDER_VIDEOS]. *)
Definition settings_Config (bucket_name bucket_folder signing_email : string)
    (max_content_length : Z) : Config :=
  {| BUCKET_NAME := bucket_name;
     BUCKET_FOLDER := bucket_folder;
     SIGNING_SERVICE_ACCOUNT_EMAIL := signing_email;
     MAX_CONTENT_LENGTH := max_content_length;
     BUCKET_FOLDER_VIDEOS := None |}.

(** [Config()] when no environment variable is set. *)
Definition default_Config : Config :=
  settings_Config "medisupply-bucket" "sales-plan" "" (500 * 1024 * 1024).

Module db_models.

(** [ScheduledVisitClientDB], table [scheduled_visit_clients]. *)
Record ScheduledVisitClientDB := mkRow {
  id : Z;
  visit_id : string;
  client_id : string;
  status : string;
  find : option string;
  filename : option string;
  filename_url : option string;
  file_status : option string;
  filename_processed : option string;
  filename_url_processed : option string;
  created_at : option Z;
  updated_at : option Z
}.

End db_models.

Abbreviation Row := db_models.ScheduledVisitClientDB.

(** Python truthiness of an [Optional[str]]. *)
Definition truthy (s : option string) : bool :=
  match s with
  | Some EmptyString | None => false
  | Some _ => true
  end.

(* ===================================================================== *)
(** ** The world the collaborators act on                                 *)
(* ===================================================================== *)

(** One constructor per call that leaves the repository's code. *)
Inductive Event :=
  | EvQuery (visit_client_id : Z)        (* session.query(..).filter(..).first() *)
  | EvCommit                             (* session.commit() *)
  | EvRollback                           (* session.rollback() *)
  | EvBucket                             (* CloudStorageService.bucket *)
  | EvBlobExists (full_path : string)    (* blob.exists() *)
  | EvBlobDownload (full_path : string)  (* blob.download_to_file(..) *)
  | EvBlobUpload (full_path content_type : string) (data : bytes)
                                         (* blob.upload_from_file(..) *)
  | EvSignUrl (full_path : string)       (* default(), Credentials(..), generate_signed_url(..) *)
  | EvNamedTemporaryFile (suffix : string)
  | EvWrite (path : string)              (* temp_video.write(..) *)
  | EvVideoFileClip (path : string)
  | EvLogoClip                           (* ImageClip, resize, set_fps, concatenate_videoclips *)
  | EvWriteVideofile (path : string)
  | EvCloseClips
  | EvOpen (path : string)               (* open(video_path, 'rb') *)
  | EvRemove (path : string).            (* os.remove(..) *)

Record World := mkWorld {
  db : gmap Z Row;            (* committed rows *)
  session : gmap Z Row;       (* rows changed in the session, not yet committed *)
  disk : gmap string bytes;   (* files on the local disk *)
  trace : list Event          (* the calls made so far, oldest first *)
}.

(** What the collaborators answer.  Every answer may depend on the calls
    made before it. *)
Record Env := mkEnv {
  raises : list Event -> Event -> option Exn;
  blob_exists : list Event -> string -> bool;
  blob_content : list Event -> string -> bytes;
  signed_url : list Event -> string -> string;
  temp_name : list Event -> string;
  encoded_video : list Event -> string -> bytes;
  utcnow : list Event -> Z;
  (** [str(GoogleCloudError(msg))] *)
  google_cloud_error_str : string -> string
}.

(** A computation that may raise and that changes the world. *)
Definition M (A : Type) : Type := World -> (Exn + A) * World.

Definition ret {A} (a : A) : M A := fun w => (inr a, w).

Definition raise {A} (e : Exn) : M A := fun w => (inl e, w).

Definition bind {A B} (m : M A) (k : A -> M B) : M B :=
  fun w => match m w with
           | (inl e, w') => (inl e, w')
           | (inr a, w') => k a w'
           end.

(** [try: m  except Exception as e: h e] *)
Definition try_except {A} (m : M A) (h : Exn -> M A) : M A :=
  fun w => match m w with
           | (inl e, w') => h e w'
           | (inr a, w') => (inr a, w')
           end.

Notation "x <- m ;; k" := (bind m (fun x => k))
  (at level 100, m at next level, right associativity).
Notation "m ;;; k" := (bind m (fun _ => k))
  (at level 100, right associativity).

Definition log (ev : Event) (w : World) : World :=
  {| db := db w; session := session w; disk := disk w; trace := trace w ++ [ev] |}.

Definition set_db (d : gmap Z Row) (w : World) : World :=
  {| db := d; session := session w; disk := disk w; trace := trace w |}.

Definition set_session (s : gmap Z Row) (w : World) : World :=
  {| db := db w; session := s; disk := disk w; trace := trace w |}.

Definition set_disk (d : gmap string bytes) (w : World) : World :=
  {| db := db w; session := session w; disk := d; trace := trace w |}.

(** The row the session shows for a key: its own pending version if it
    has one, the committed one otherwise. *)
Definition session_view (w : World) (k : Z) : option Row :=
  match session w !! k with
  | Some r => Some r
  | None => db w !! k
  end.

(* ===================================================================== *)
(** ** Calls to the collaborators                                         *)
(* ===================================================================== *)

Section Collaborators.

Variable env : Env.

(** A call is recorded, then it raises or returns as the environment
    decides from the calls before it. *)
Definition call (ev : Event) : M unit :=
  fun w => match raises env (trace w) ev with
           | Some e => (inl e, log ev w)
           | None => (inr tt, log ev w)
           end.

Definition GoogleCloudError (msg : string) : Exn :=
  mkExn GoogleCloudErrorClass (google_cloud_error_str env msg).

(** [session.query(ScheduledVisitClientDB).filter(id == k).first()] *)
Definition session_query_first (k : Z) : M (option Row) :=
  call (EvQuery k) ;;; fun w => (inr (session_view w k), w).

(** Attribute assignment on a row loaded in the session. *)
Definition session_set (k : Z) (r : Row) : M unit :=
  fun w => (inr tt, set_session (<[k := r]> (session w)) w).

(** [session.commit()]: all pending rows reach the table, or none. *)
Definition session_commit : M unit :=
  call EvCommit ;;;
  fun w => (inr tt, set_session ∅ (set_db (session w ∪ db w) w)).

(** [session.rollback()]: the pending rows are dropped. *)
Definition session_rollback : M unit :=
  call EvRollback ;;; fun w => (inr tt, set_session ∅ w).

Definition blob_exists_call (full_path : string) : M bool :=
  fun w => bind (call (EvBlobExists full_path))
                (fun _ => ret (blob_exists env (trace w) full_path)) w.

Definition blob_download_to_file (full_path : string) : M bytes :=
  fun w => bind (call (EvBlobDownload full_path))
                (fun _ => ret (blob_content env (trace w) full_path)) w.

Definition blob_upload_from_file (full_path content_type : string) (data : bytes)
  : M unit :=
  call (EvBlobUpload full_path content_type data).

Definition blob_generate_signed_url (full_path : string) : M string :=
  fun w => bind (call (EvSignUrl full_path))
                (fun _ => ret (signed_url env (trace w) full_path)) w.

(** [tempfile.NamedTemporaryFile(suffix=.., delete=False)]: the name is
    a directory and random stem of the environment's choice followed by
    the suffix; the file exists, empty, once the call has returned. *)
Definition NamedTemporaryFile (suffix : string) : M string :=
  fun w =>
    let name := temp_name env (trace w) +:+ suffix in
    bind (call (EvNamedTemporaryFile suffix))
         (fun _ w' => (inr name, set_disk (<[name := []]> (disk w')) w')) w.

Definition file_write (path : string) (data : bytes) : M unit :=
  call (EvWrite path) ;;;
  fun w => (inr tt, set_disk (<[path := data]> (disk w)) w).

(** [final_video.write_videofile(path, ..)] *)
Definition write_videofile (path : string) : M unit :=
  fun w =>
    let data := encoded_video env (trace w) path in
    bind (call (EvWriteVideofile path))
         (fun _ w' => (inr tt, set_disk (<[path := data]> (disk w')) w')) w.

(** [os.path.exists(path)] *)
Definition os_path_exists (path : string) : M bool :=
  fun w => (inr (bool_decide (is_Some (disk w !! path))), w).

(** [open(path, 'rb')] and the bytes the stream holds. *)
Definition open_rb (path : string) : M bytes :=
  call (EvOpen path) ;;;
  fun w => match disk w !! path with
           | Some data => (inr data, w)
           | None => (inl (Exception ("[Errno 2] No such file or directory: '"
                                      +:+ path +:+ "'")), w)
           end.

(** [os.remove(path)] *)
Definition os_remove (path : string) : M unit :=
  call (EvRemove path) ;;;
  fun w => (inr tt, set_disk (delete path (disk w)) w).

End Collaborators.

(* ===================================================================== *)
(** ** [CloudStorageService]                                              *)
(* ===================================================================== *)

(** [werkzeug.datastructures.FileStorage]: the stream's bytes and the
    file name given to the constructor. *)
Record FileStorage := mkFileStorage { stream : bytes; fs_filename : string }.

Module CloudStorageService.

(** [s.lower()], which for the keys of [content_types] only matters on
    the ASCII capitals. *)
Definition lower_char (c : Ascii.ascii) : Ascii.ascii :=
  let n := Ascii.nat_of_ascii c in
  if ((65 <=? n) && (n <=? 90))%nat then Ascii.ascii_of_nat (n + 32) else c.

Fixpoint lower (s : string) : string :=
  match s with
  | EmptyString => EmptyString
  | String c s' => String (lower_char c) (lower s')
  end.

Definition content_types : list (string * string) :=
  [ ("pdf", "application/pdf");
    ("doc", "application/msword");
    ("docx", "application/vnd.openxmlformats-officedocument.wordprocessingml.document");
    ("xls", "application/vnd.ms-excel");
    ("xlsx", "application/vnd.openxmlformats-officedocument.spreadsheetml.sheet");
    ("txt", "text/plain");
    ("jpg", "image/jpeg");
    ("jpeg", "image/jpeg");
    ("png", "image/png");
    ("gif", "image/gif");
    ("mp4", "video/mp4");
    ("avi", "video/x-msvideo");
    ("mov", "video/quicktime");
    ("wmv", "video/x-ms-wmv") ].

Fixpoint dict_get (d : list (string * string)) (k dflt : string) : string :=
  match d with
  | [] => dflt
  | (k', v) :: d' => if String.eqb k' k then v else dict_get d' k dflt
  end.

(** The content type [upload_file] detects from [file.filename]. *)
Definition detect_content_type (name : string) : string :=
  let dot := PosixPath.rfind "."%char name in
  if 0 <=? dot then
    let extension := lower (PosixPath.slice_from name (dot + 1)) in
    dict_get content_types extension "application/octet-stream"
  else "application/octet-stream".

(** [f"{folder}/{filename}"] *)
Definition join (folder filename : string) : string :=
  folder +:+ "/" +:+ filename.

Section Service.

Variable config : Config.
Variable env : Env.

Definition download_file (filename : string) (folder : option string) : M bytes :=
  try_except
    (let full_path := if truthy folder then join (default "" folder) filename
                      else filename in
     call env EvBucket ;;;
     present <- blob_exists_call env full_path ;;
     if negb present then
       raise (GoogleCloudError env ("El archivo " +:+ full_path +:+ " no existe en el bucket"))
     else
       file_content <- blob_download_to_file env full_path ;;
       ret file_content)
    (fun e =>
       if is_GoogleCloudError e then raise e
       else raise (GoogleCloudError env
                     ("Error al descargar archivo desde Cloud Storage: " +:+ str e))).

Definition get_file_url (filename : string) (folder : option string) : M string :=
  let target_folder := default (BUCKET_FOLDER config) folder in
  try_except
    (let full_path := join target_folder filename in
     call env EvBucket ;;;
     present <- blob_exists_call env full_path ;;
     if negb present then ret EmptyString
     else
       url <- blob_generate_signed_url env full_path ;;
       ret url)
    (fun _ =>
       ret ("https://storage.googleapis.com/" +:+ BUCKET_NAME config +:+ "/"
            +:+ target_folder +:+ "/" +:+ filename)).

Definition upload_file (file : FileStorage) (filename : string)
    (folder : option string) : M (bool * string * option string) :=
  try_except
    (if String.eqb (fs_filename file) EmptyString then
       ret (false, "No se proporcionó archivo", None)
     else
       let file_size := Z.of_nat (length (stream file)) in
       let max_size := MAX_CONTENT_LENGTH config in
       if file_size >? max_size then
         ret (false,
              "El archivo excede el tamaño máximo permitido de "
              +:+ NilZero.string_of_int (Z.to_int (max_size / (1024 * 1024)))
              +:+ " MB",
              None)
       else
         let target_folder := default (BUCKET_FOLDER config) folder in
         let full_path := join target_folder filename in
         call env EvBucket ;;;
         let content_type := detect_content_type (fs_filename file) in
         blob_upload_from_file env full_path content_type (stream file) ;;;
         url <- get_file_url filename (Some target_folder) ;;
         ret (true, "Archivo subido exitosamente", Some url))
    (fun e =>
       if is_GoogleCloudError e then
         ret (false, "Error de Google Cloud Storage: " +:+ str e, None)
       else
         ret (false, "Error al subir archivo: " +:+ str e, None)).

End Service.

End CloudStorageService.

(* ===================================================================== *)
(** ** [VideoProcessorService]                                            *)
(* ===================================================================== *)

(** The dictionary [process_video_by_visit_client_id] returns. *)
Record ProcessingResult := mkResult {
  res_visit_client_id : Z;
  res_original_filename : string;
  res_processed_filename : string;
  res_processed_url : option string;
  res_status : string
}.

Module VideoProcessorService.

Section Service.

Variable config : Config.
Variable env : Env.
Variable logo_path : string.

Definition _get_visit_client_by_id (visit_client_id : Z) : M (option Row) :=
  session_query_first env visit_client_id.

(** [self.config.BUCKET_FOLDER_VIDEOS] *)
Definition config_BUCKET_FOLDER_VIDEOS : M string :=
  match BUCKET_FOLDER_VIDEOS config with
  | Some folder => ret folder
  | None => raise (mkExn AttributeErrorClass
                     "'Config' object has no attribute 'BUCKET_FOLDER_VIDEOS'")
  end.

Definition _download_video_from_storage (filename : string) : M bytes :=
  try_except
    (folder <- config_BUCKET_FOLDER_VIDEOS ;;
     video_content <- CloudStorageService.download_file env filename (Some folder) ;;
     ret video_content)
    (fun e => raise (Exception
                       ("Error al descargar video desde Cloud Storage: " +:+ str e))).

Definition _process_video_with_logo (video_content : bytes) (filename : string)
  : M (string * string) :=
  try_except
    (temp_video_path <- NamedTemporaryFile env ".mp4" ;;
     file_write env temp_video_path video_content ;;;
     call env (EvVideoFileClip temp_video_path) ;;;
     logo_present <- os_path_exists logo_path ;;
     if negb logo_present then
       raise (Exception ("Logo no encontrado en: " +:+ logo_path))
     else
       call env EvLogoClip ;;;
       temp_processed_path <- NamedTemporaryFile env "_processed.mp4" ;;
       write_videofile env temp_processed_path ;;;
       call env EvCloseClips ;;;
       ret (temp_video_path, temp_processed_path))
    (fun e => raise (Exception ("Error al procesar video: " +:+ str e))).

Definition _upload_processed_video (video_path filename : string)
  : M (option string) :=
  try_except
    (video_file <- open_rb env video_path ;;
     let file_storage := mkFileStorage video_file filename in
     reply <- CloudStorageService.upload_file config env file_storage filename None ;;
     let '(success, message, signed_url) := reply in
     if negb success then
       raise (Exception ("Error al subir video: " +:+ message))
     else ret signed_url)
    (fun e => raise (Exception ("Error al subir video procesado: " +:+ str e))).

Definition mark_processed (r : Row) (processed_filename : string)
    (processed_url : option string) (now : Z) : Row :=
  {| db_models.id := db_models.id r;
     db_models.visit_id := db_models.visit_id r;
     db_models.client_id := db_models.client_id r;
     db_models.status := db_models.status r;
     db_models.find := db_models.find r;
     db_models.filename := db_models.filename r;
     db_models.filename_url := db_models.filename_url r;
     db_models.file_status := Some "Procesado";
     db_models.filename_processed := Some processed_filename;
     db_models.filename_url_processed := processed_url;
     db_models.created_at := db_models.created_at r;
     db_models.updated_at := Some now |}.

Definition _update_visit_client_record (visit_client_id : Z)
    (processed_filename : string) (processed_url : option string) : M unit :=
  try_except
    (db_client <- _get_visit_client_by_id visit_client_id ;;
     match db_client with
     | None => raise (Exception "Registro no encontrado")
     | Some r =>
         (fun w => session_set visit_client_id
                     (mark_processed r processed_filename processed_url
                        (utcnow env (trace w))) w) ;;;
         session_commit env
     end)
    (fun e =>
       session_rollback env ;;;
       raise (Exception ("Error al actualizar registro: " +:+ str e))).

(** The body of the loop of [_cleanup_temp_files]. *)
Definition cleanup_file (file_path : option string) : M unit :=
  if truthy file_path then
    let path := default "" file_path in
    present <- os_path_exists path ;;
    if present then try_except (os_remove env path) (fun _ => ret tt)
    else ret tt
  else ret tt.

Fixpoint _cleanup_temp_files (file_paths : list (option string)) : M unit :=
  match file_paths with
  | [] => ret tt
  | file_path :: rest => cleanup_file file_path ;;; _cleanup_temp_files rest
  end.

(** [except Exception as e: raise Exception(f"Error al procesar video: {str(e)}")] *)
Definition reraise_wrapped {A} (outcome : Exn + A) : Exn + A :=
  match outcome with
  | inl e => inl (Exception ("Error al procesar video: " +:+ str e))
  | inr result => inr result
  end.

(** Lines 49-63 of the [try] block, the lookup, the check and the
    download: the value is [db_client.filename] with the bytes. *)
Definition process_until_content (visit_client_id : Z) : M (string * bytes) :=
  db_client <- _get_visit_client_by_id visit_client_id ;;
  match db_client with
  | None =>
      raise (Exception ("No se encontró registro de cliente en visita con ID: "
                        +:+ NilZero.string_of_int (Z.to_int visit_client_id)))
  | Some r =>
      if negb (truthy (db_models.filename r)) || negb (truthy (db_models.filename_url r))
      then raise (Exception "El registro no tiene un video asociado")
      else
        let filename := default "" (db_models.filename r) in
        video_content <- _download_video_from_storage filename ;;
        ret (filename, video_content)
  end.

(** Lines 49-69, up to and including the assignment of the two
    temporary paths. *)
Definition process_until_paths (visit_client_id : Z)
  : M (string * (string * string)) :=
  found <- process_until_content visit_client_id ;;
  paths <- _process_video_with_logo (snd found) (fst found) ;;
  ret (fst found, paths).

(** Lines 71-92, the rest of the [try] block.  The result reads
    [db_client.filename] again; no step assigns that column, so it is the
    value read at the lookup. *)
Definition process_from_paths (visit_client_id : Z) (filename : string)
    (temp_processed_path : string) : M ProcessingResult :=
  let processed_filename := _generate_processed_filename filename in
  processed_url <- _upload_processed_video temp_processed_path processed_filename ;;
  _update_visit_client_record visit_client_id processed_filename processed_url ;;;
  ret {| res_visit_client_id := visit_client_id;
         res_original_filename := filename;
         res_processed_filename := processed_filename;
         res_processed_url := processed_url;
         res_status := "Procesado" |}.

Definition process_video_by_visit_client_id (visit_client_id : Z)
  : M ProcessingResult :=
  fun w =>
    (* try *)
    let '(outcome, temp_video_path, temp_processed_path, w1) :=
      match process_until_paths visit_client_id w with
      | (inl e, w1) => (inl e, None, None, w1)
      | (inr (filename, (video_path, processed_path)), w1) =>
          let '(r, w2) :=
            process_from_paths visit_client_id filename processed_path w1 in
          (r, Some video_path, Some processed_path, w2)
      end in
    (* except Exception as e *)
    let outcome' := reraise_wrapped outcome in
    (* finally *)
    match _cleanup_temp_files [temp_video_path; temp_processed_path] w1 with
    | (inl e, w2) => (inl e, w2)
    | (inr _, w2) => (outcome', w2)
    end.

End Service.

End VideoProcessorService.


(* ===================================================================== *)
(** ** [CloudStorageService]: existence and deletion                      *)
(* ===================================================================== *)

(** The world with the calls to [blob.delete()] made so far, oldest
    first: the path of the blob and whether the call returned. *)
Record StoreWorld := mkStoreWorld {
  base : World;
  delete_calls : list (string * bool)
}.

(** A computation over the extended world. *)
Definition MS (A : Type) : Type := StoreWorld -> (Exn + A) * StoreWorld.

Definition lift {A} (m : M A) : MS A :=
  fun sw => let '(r, w') := m (base sw) in
            (r, {| base := w'; delete_calls := delete_calls sw |}).

Definition retS {A} (a : A) : MS A := fun sw => (inr a, sw).

Definition bindS {A B} (m : MS A) (k : A -> MS B) : MS B :=
  fun sw => match m sw with
            | (inl e, sw') => (inl e, sw')
            | (inr a, sw') => k a sw'
            end.

Definition try_exceptS {A} (m : MS A) (h : Exn -> MS A) : MS A :=
  fun sw => match m sw with
            | (inl e, sw') => h e sw'
            | (inr a, sw') => (inr a, sw')
            end.

Module CloudStorageFiles.

Section Service.

Variable env : Env.

(** Whether [blob.delete()] raises, given the calls made before it. *)
Variable delete_raises : list Event -> list (string * bool) -> string -> option Exn.

(** [blob.delete()] *)
Definition blob_delete (full_path : string) : MS unit :=
  fun sw =>
    match delete_raises (trace (base sw)) (delete_calls sw) full_path with
    | Some e => (inl e, {| base := base sw;
                           delete_calls := delete_calls sw ++ [(full_path, false)] |})
    | None => (inr tt, {| base := base sw;
                          delete_calls := delete_calls sw ++ [(full_path, true)] |})
    end.

(** [f"{folder}/{filename}" if folder else filename] *)
Definition full_path_of (filename : string) (folder : option string) : string :=
  if truthy folder then CloudStorageService.join (default "" folder) filename
  else filename.

Definition file_exists (filename : string) (folder : option string) : M bool :=
  try_except
    (let full_path := full_path_of filename folder in
     call env EvBucket ;;;
     present <- blob_exists_call env full_path ;;
     ret present)
    (fun _ => ret false).

Definition delete_file (filename : string) (folder : option string) : MS bool :=
  try_exceptS
    (let full_path := full_path_of filename folder in
     bindS (lift (call env EvBucket)) (fun _ =>
     bindS (lift (blob_exists_call env full_path)) (fun present =>
     if present then bindS (blob_delete full_path) (fun _ => retS true)
     else retS false)))
    (fun e => if is_GoogleCloudError e then retS false else retS false).

End Service.

End CloudStorageFiles.

(* ===================================================================== *)
(** ** [VideoProcessorController]                                         *)
(* ===================================================================== *)

(** A Python [float]: a finite one is a rational. *)
Inductive PyFloat :=
  | FloatFinite (q : QArith_base.Q)
  | FloatNaN
  | FloatInf.

(** What [request.get_json] and [json.loads] return. *)
#[warnings="-register-all"] Inductive JSON :=
  | JNull
  | JBool (b : bool)
  | JInt (n : Z)
  | JFloat (x : PyFloat)
  | JStr (s : string)
  | JList (items : list JSON)
  | JDict (items : list (string * JSON)).

(** What [int(x)] does: a value, a [ValueError], or another exception. *)
Inductive IntOutcome :=
  | IntOk (n : Z)
  | IntValueError
  | IntRaises (e : Exn).

(** What the interpreter and the libraries answer. *)
Record Interpreter := mkInterpreter {
  (** [json.loads(base64.b64decode(x).decode('utf-8'))] *)
  decode_event : JSON -> Exn + JSON;
  (** [int(s)] for a [str]: [None] is [ValueError] *)
  int_of_str : string -> option Z;
  (** the [TypeError], [AttributeError] or [OverflowError] an operation
      raises on a value it does not apply to *)
  unsupported : string -> JSON -> Exn
}.

(** The body and the status of a response. *)
Record Response := mkResponse {
  status_code : Z;
  body_success : bool;
  body_message : string;
  body_data : option ProcessingResult
}.

Module Py.

(** [bool(x)] *)
Definition truth (x : JSON) : bool :=
  match x with
  | JNull => false
  | JBool b => b
  | JInt n => negb (n =? 0)
  | JFloat (FloatFinite q) => negb (QArith_base.Qnum q =? 0)
  | JFloat _ => true
  | JStr s => negb (String.eqb s EmptyString)
  | JList items => match items with [] => false | _ => true end
  | JDict items => match items with [] => false | _ => true end
  end.

Fixpoint dict_lookup (key : string) (items : list (string * JSON)) : option JSON :=
  match items with
  | [] => None
  | (k, v) :: rest => if String.eqb k key then Some v else dict_lookup key rest
  end.

(** [key in s] for two [str] *)
Fixpoint is_substring (key s : string) : bool :=
  String.prefix key s ||
  match s with
  | EmptyString => false
  | String _ s' => is_substring key s'
  end.

Section Operations.

Variable interp : Interpreter.

(** [key in container] *)
Definition contains (key : string) (container : JSON) : Exn + bool :=
  match container with
  | JDict items => inr (bool_decide (is_Some (dict_lookup key items)))
  | JList items =>
      inr (existsb (fun x => match x with
                             | JStr s => String.eqb s key
                             | _ => false
                             end) items)
  | JStr s => inr (is_substring key s)
  | _ => inl (unsupported interp "in" container)
  end.

(** [container[key]], asked only after [key in container] answered [True] *)
Definition getitem (container : JSON) (key : string) : Exn + JSON :=
  match container with
  | JDict items =>
      match dict_lookup key items with
      | Some v => inr v
      | None => inl (Exception ("'" +:+ key +:+ "'"))
      end
  | _ => inl (unsupported interp "[]" container)
  end.

(** [x.get(key)] *)
Definition get (x : JSON) (key : string) : Exn + JSON :=
  match x with
  | JDict items => inr (default JNull (dict_lookup key items))
  | _ => inl (unsupported interp "get" x)
  end.

(** [int(x)] *)
Definition int (x : JSON) : IntOutcome :=
  match x with
  | JBool b => IntOk (if b then 1 else 0)
  | JInt n => IntOk n
  | JFloat (FloatFinite q) =>
      IntOk (Z.quot (QArith_base.Qnum q) (Z.pos (QArith_base.Qden q)))
  | JFloat FloatNaN => IntValueError
  | JStr s => match int_of_str interp s with
              | Some n => IntOk n
              | None => IntValueError
              end
  | _ => IntRaises (unsupported interp "int" x)
  end.

End Operations.

End Py.

Module VideoProcessorController.

Definition bad_request (message : string) : Response :=
  {| status_code := 400; body_success := false;
     body_message := message; body_data := None |}.

Definition server_error (message : string) : Response :=
  {| status_code := 500; body_success := false;
     body_message := message; body_data := None |}.

Definition processed (result : ProcessingResult) : Response :=
  {| status_code := 200; body_success := true;
     body_message := "Video procesado exitosamente"; body_data := Some result |}.

(** A step that touches nothing. *)
Definition pure {A} (outcome : Exn + A) : M A := fun w => (outcome, w).

Section Controller.

Variable config : Config.
Variable env : Env.
Variable logo_path : string.
Variable interp : Interpreter.

(** Lines 103-105: [message['data']] and its decoding, inside their own
    [try]. *)
Definition decode_data (message : JSON) : Exn + JSON :=
  match Py.getitem interp message "data" with
  | inl e => inl e
  | inr data => decode_event interp data
  end.

(** [process_video]; [request_json] is what
    [request.get_json(force=True)] does. *)
Definition process_video (request_json : Exn + JSON) : M Response :=
  try_except
    (match request_json with
     | inl _ => ret (bad_request "Petición sin contenido JSON")
     | inr pubsub_message =>
         if negb (Py.truth pubsub_message) then
           ret (bad_request "Petición sin contenido JSON")
         else
           has_message <- pure (Py.contains interp "message" pubsub_message) ;;
           if negb has_message then
             ret (bad_request "Formato de mensaje Pub/Sub inválido")
           else
             message <- pure (Py.getitem interp pubsub_message "message") ;;
             has_data <- pure (Py.contains interp "data" message) ;;
             if negb has_data then ret (bad_request "Mensaje sin data")
             else
               match decode_data message with
               | inl e =>
                   ret (bad_request ("Error al decodificar mensaje: " +:+ str e))
               | inr event_data =>
                   scheduled_visit_client_id <-
                     pure (Py.get interp event_data "scheduled_visit_client_id") ;;
                   if negb (Py.truth scheduled_visit_client_id) then
                     ret (bad_request "Evento sin scheduled_visit_client_id")
                   else
                     match Py.int interp scheduled_visit_client_id with
                     | IntValueError =>
                         ret (bad_request
                                "scheduled_visit_client_id debe ser un número entero")
                     | IntRaises e => raise e
                     | IntOk visit_client_id =>
                         result <- VideoProcessorService.process_video_by_visit_client_id
                                     config env logo_path visit_client_id ;;
                         ret (processed result)
                     end
               end
     end)
    (fun e => ret (server_error ("Error al procesar video: " +:+ str e))).

End Controller.

End VideoProcessorController.

(* ===================================================================== *)
(** ** Which steps touch what                                             *)
(* ===================================================================== *)

(** Neither the table nor the session's pending rows have changed. *)
Definition store_untouched (w w' : World) : Prop :=
  db w' = db w /\ session w' = session w.

(** The files on disk have not changed. *)
Definition disk_untouched (w w' : World) : Prop := disk w' = disk w.

(** Only the record of calls may have changed. *)
Definition only_traced (w w' : World) : Prop :=
  store_untouched w w' /\ disk_untouched w w'.

(** A computation that relates every world to the one it leaves. *)
Definition keeps (R : relation World) {A} (m : M A) : Prop :=
  forall w, R w (snd (m w)).


Definition is_EvRemove (ev : Event) : Prop := exists p, ev = EvRemove p.

(** What the cleanup of a list of paths leaves: it creates no file, it
    removes each listed file unless [os.remove] raised, and it calls
    nothing but [os.remove]. *)
Definition cleanup_post (env : Env) (paths : list (option string)) (w w' : World) : Prop :=
  (forall q, disk w !! q = None -> disk w' !! q = None) /\
  (forall p, Some p ∈ paths -> p <> EmptyString ->
             (forall h, raises env h (EvRemove p) = None) ->
             disk w' !! p = None) /\
  (exists t, trace w' = trace w ++ t /\ Forall is_EvRemove t).


(** The collaborators of a run in which nothing goes wrong: no call
    raises, every blob asked for exists, and the encoded video fits the
    size limit of the configuration. *)
Definition cooperative (config : Config) (env : Env) : Prop :=
  (forall h ev, raises env h ev = None) /\
  (forall h p, blob_exists env h p = true) /\
  (forall h p, Z.of_nat (length (encoded_video env h p)) <= MAX_CONTENT_LENGTH config).

(* ===================================================================== *)
(** ** What a step calls                                                  *)
(* ===================================================================== *)

(** The calls recorded so far are still there, and every call made
    since satisfies [P]. *)
Definition emits (P : Event -> Prop) (w w' : World) : Prop :=
  exists t, trace w' = trace w ++ t /\ Forall P t.

Definition is_blob_upload (ev : Event) : Prop :=
  exists path content_type data, ev = EvBlobUpload path content_type data.

(** [session.commit()] or [session.rollback()]. *)
Definition is_persist (ev : Event) : Prop := ev = EvCommit \/ ev = EvRollback.

(** The file at [path], or its absence, has not changed. *)
Definition file_untouched (path : string) (w w' : World) : Prop :=
  disk w' !! path = disk w !! path.

(** The upload a run makes for the record it was asked to process: to
    [BUCKET_FOLDER], under the name derived from the record's, as
    ["video/mp4"], and not under the record's own name. *)
Definition uploads_derived_name (config : Config) (w : World) (visit_client_id : Z)
    (ev : Event) : Prop :=
  forall path content_type data,
    ev = EvBlobUpload path content_type data ->
    content_type = "video/mp4" /\
    exists (r : Row) (f : string),
      session_view w visit_client_id = Some r /\ db_models.filename r = Some f /\
      path = CloudStorageService.join (BUCKET_FOLDER config)
               (_generate_processed_filename f) /\
      path <> CloudStorageService.join (BUCKET_FOLDER config) f.

(** The three call sequences of [_update_visit_client_record] after its
    lookup. *)
Inductive UpdateCalls : list Event -> Exn + unit -> Prop :=
| committed : UpdateCalls [EvCommit] (inr tt)
| commit_rolled_back e : UpdateCalls [EvCommit; EvRollback] (inl e)
| rolled_back e : UpdateCalls [EvRollback] (inl e).

(** What the endpoint does with a request: it answers 400 or 500
    without having called the service, or it answers with what the
    service did. *)
Inductive Handled (config : Config) (env : Env) (logo_path : string) (w : World)
  : Response -> World -> Prop :=
| rejected message :
    Handled config env logo_path w (VideoProcessorController.bad_request message) w
| crashed message :
    Handled config env logo_path w (VideoProcessorController.server_error message) w
| failed visit_client_id e w' :
    VideoProcessorService.process_video_by_visit_client_id config env logo_path
      visit_client_id w = (inl e, w') ->
    Handled config env logo_path w
      (VideoProcessorController.server_error ("Error al procesar video: " +:+ str e)) w'
| succeeded visit_client_id result w' :
    VideoProcessorService.process_video_by_visit_client_id config env logo_path
      visit_client_id w = (inr result, w') ->
    Handled config env logo_path w (VideoProcessorController.processed result) w'.

(** The request is a Pub/Sub envelope whose [message.data] decodes to an
    event, a dict, in which [scheduled_visit_client_id] has the given
    value, or is missing. *)
Definition carries (interp : Interpreter) (pubsub_message : JSON)
    (scheduled_visit_client_id : option JSON) : Prop :=
  exists items message_items data event_items,
    pubsub_message = JDict items /\
    Py.dict_lookup "message" items = Some (JDict message_items) /\
    Py.dict_lookup "data" message_items = Some data /\
    decode_event interp data = inr (JDict event_items) /\
    Py.dict_lookup "scheduled_visit_client_id" event_items = scheduled_visit_client_id.

(* ===================================================================== *)
(** ** Concrete runs                                                      *)
(* ===================================================================== *)

Module Scenario.

(** A configuration object as the tests build it: the class attributes
    and a [BUCKET_FOLDER_VIDEOS]. *)
Definition config : Config :=
  {| BUCKET_NAME := "medisupply-bucket";
     BUCKET_FOLDER := "sales-plan";
     SIGNING_SERVICE_ACCOUNT_EMAIL := "";
     MAX_CONTENT_LENGTH := 500 * 1024 * 1024;
     BUCKET_FOLDER_VIDEOS := Some "videos" |}.

Definition logo_path : string := "/app/resources/logoMedisupply.png".

Definition record : Row :=
  {| db_models.id := 1;
     db_models.visit_id := "visit-123";
     db_models.client_id := "client-456";
     db_models.status := "SCHEDULED";
     db_models.find := None;
     db_models.filename := Some "clip.mp4";
     db_models.filename_url := Some "https://x/clip.mp4";
     db_models.file_status := Some "Pendiente";
     db_models.filename_processed := None;
     db_models.filename_url_processed := None;
     db_models.created_at := Some 1700000000;
     db_models.updated_at := Some 1700000000 |}.

(** The record is in the table, the logo is on disk. *)
Definition world : World :=
  {| db := {[ 1 := record ]};
     session := ∅;
     disk := {[ logo_path := [Byte.x89; Byte.x50] ]};
     trace := [] |}.

(** A record that has no video yet. *)
Definition record_without_video : Row :=
  {| db_models.id := 2;
     db_models.visit_id := "visit-123";
     db_models.client_id := "client-789";
     db_models.status := "SCHEDULED";
     db_models.find := None;
     db_models.filename := Some "";
     db_models.filename_url := None;
     db_models.file_status := None;
     db_models.filename_processed := None;
     db_models.filename_url_processed := None;
     db_models.created_at := Some 1700000000;
     db_models.updated_at := Some 1700000000 |}.

Definition world_without_video : World :=
  {| db := {[ 2 := record_without_video ]};
     session := ∅;
     disk := {[ logo_path := [Byte.x89; Byte.x50] ]};
     trace := [] |}.

(** The same, without the logo. *)
Definition world_without_logo : World :=
  {| db := {[ 1 := record ]}; session := ∅; disk := ∅; trace := [] |}.

(** Every collaborator answers, every blob exists. *)
Definition quiet : Env :=
  {| raises := fun _ _ => None;
     blob_exists := fun _ _ => true;
     blob_content := fun _ _ => [Byte.x00; Byte.x01; Byte.x02];
     signed_url := fun _ p => "https://signed.example/" +:+ p;
     temp_name := fun _ => "/tmp/tmpab12";
     encoded_video := fun _ _ => [Byte.x03; Byte.x04];
     utcnow := fun _ => 1700000100;
     google_cloud_error_str := fun msg => "None " +:+ msg |}.

Definition with_raises (f : list Event -> Event -> option Exn) : Env :=
  {| raises := f;
     blob_exists := blob_exists quiet;
     blob_content := blob_content quiet;
     signed_url := signed_url quiet;
     temp_name := temp_name quiet;
     encoded_video := encoded_video quiet;
     utcnow := utcnow quiet;
     google_cloud_error_str := google_cloud_error_str quiet |}.

(** [session.commit()] raises. *)
Definition commit_fails : Env :=
  with_raises (fun _ ev => match ev with
                           | EvCommit => Some (Exception "DB Error")
                           | _ => None
                           end).

(** [blob.upload_from_file] raises a [GoogleCloudError]. *)
Definition upload_fails : Env :=
  with_raises (fun _ ev => match ev with
                           | EvBlobUpload _ _ _ =>
                               Some (mkExn GoogleCloudErrorClass "503 backend unavailable")
                           | _ => None
                           end).

(** [os.remove] raises. *)
Definition remove_denied : Env :=
  with_raises (fun _ ev => match ev with
                           | EvRemove _ => Some (Exception "[Errno 13] Permission denied")
                           | _ => None
                           end).

(** The source video exists; the existence check made for the signed
    URL of the uploaded blob answers [False]. *)
Definition uploaded_blob_not_seen : Env :=
  {| raises := raises quiet;
     blob_exists := fun _ p => String.prefix "videos/" p;
     blob_content := blob_content quiet;
     signed_url := signed_url quiet;
     temp_name := temp_name quiet;
     encoded_video := encoded_video quiet;
     utcnow := utcnow quiet;
     google_cloud_error_str := google_cloud_error_str quiet |}.

(** Signing raises. *)
Definition signing_fails : Env :=
  with_raises (fun _ ev => match ev with
                           | EvSignUrl _ => Some (Exception "could not sign")
                           | _ => None
                           end).

End Scenario.

(** A configuration with a limit of two bytes, to look at the boundary
    of the size check. *)
Definition two_byte_limit : Config :=
  {| BUCKET_NAME := "medisupply-bucket";
     BUCKET_FOLDER := "sales-plan";
     SIGNING_SERVICE_ACCOUNT_EMAIL := "";
     MAX_CONTENT_LENGTH := 2;
     BUCKET_FOLDER_VIDEOS := Some "videos" |}.

(** Push requests as Pub/Sub sends them, with an interpreter that knows
    the payloads used here. *)
Module PubSub.

Definition envelope (data : JSON) : JSON :=
  JDict [("message", JDict [("data", data); ("messageId", JStr "136969346945")]);
         ("subscription", JStr "projects/medisupply/subscriptions/videos")].

Definition event (scheduled_visit_client_id : JSON) : JSON :=
  JDict [("scheduled_visit_client_id", scheduled_visit_client_id);
         ("event_type", JStr "video_processing")].

Definition interp : Interpreter :=
  {| decode_event := fun data =>
       match data with
       | JStr "eyJzY2hlZHVsZWRfdmlzaXRfY2xpZW50X2lkIjogMX0=" => inr (event (JInt 1))
       | JStr "eyJzY2hlZHVsZWRfdmlzaXRfY2xpZW50X2lkIjogMH0=" => inr (event (JInt 0))
       | JStr "eyJzY2hlZHVsZWRfdmlzaXRfY2xpZW50X2lkIjogWzddfQ==" =>
           inr (event (JList [JInt 7]))
       | JStr "eyJzY2hlZHVsZWRfdmlzaXRfY2xpZW50X2lkIjogNDA0fQ==" => inr (event (JInt 404))
       | JStr _ => inl (Exception "Incorrect padding")
       | _ => inl (Exception "argument should be a bytes-like object or ASCII string")
       end;
     int_of_str := fun s => if String.eqb s "1" then Some 1 else None;
     unsupported := fun operation _ =>
       Exception ("unsupported operand for " +:+ operation) |}.

End PubSub.

(* ===================================================================== *)
(** ** Facts about paths                                                  *)
(* ===================================================================== *)

Module PathFacts.

Import PosixPath.

Lemma rfind_from_cases (c : Ascii.ascii) (s : string) : forall i last,
  (rfind c s = -1 /\ rfind_from c s i last = last) \/
  (0 <= rfind c s < Z.of_nat (String.length s) /\
   rfind_from c s i last = i + rfind c s).
Proof.
  unfold rfind. induction s as [|a s IH]; intros i last; cbn [rfind_from String.length].
  - left. split; reflexivity.
  - destruct (IH (0 + 1) (if Ascii.eqb a c then 0 else -1)) as [[E0 E1]|[B0 E1]];
    destruct (IH (i + 1) (if Ascii.eqb a c then i else last)) as [[F0 F1]|[G0 F1]];
    rewrite E1, F1; destruct (Ascii.eqb a c); lia.
Qed.

Lemma rfind_bounds (c : Ascii.ascii) (s : string) :
  -1 <= rfind c s < Z.of_nat (String.length s) \/ (rfind c s = -1 /\ s = EmptyString).
Proof.
  destruct s as [|a s].
  - right. split; reflexivity.
  - left. destruct (rfind_from_cases c (String a s) 0 (-1)) as [[E _]|[B _]];
      cbn [String.length] in *; lia.
Qed.

Lemma rfind_range (c : Ascii.ascii) (s : string) :
  -1 <= rfind c s <= Z.of_nat (String.length s) - 1.
Proof.
  destruct (rfind_bounds c s) as [B|[E ->]]; [lia|].
  cbn. lia.
Qed.

Lemma rfind_cons (c a : Ascii.ascii) (s : string) :
  rfind c (String a s) =
    if 0 <=? rfind c s then 1 + rfind c s
    else if Ascii.eqb a c then 0 else -1.
Proof.
  unfold rfind at 1. cbn [rfind_from].
  destruct (rfind_from_cases c s (0 + 1) (if Ascii.eqb a c then 0 else -1)) as [[E ->]|[B ->]].
  - rewrite E. reflexivity.
  - destruct (Z.leb_spec 0 (rfind c s)); [reflexivity|lia].
Qed.

Lemma rfind_app (c : Ascii.ascii) (a b : string) :
  rfind c (a +:+ b) =
    if 0 <=? rfind c b then Z.of_nat (String.length a) + rfind c b
    else rfind c a.
Proof.
  induction a as [|x a IH]; cbn [String.append String.length].
  - pose proof (rfind_range c b).
    change (Z.of_nat 0) with 0.
    change (EmptyString +:+ b) with b.
    destruct (Z.leb_spec 0 (rfind c b)); [lia|].
    change (rfind c EmptyString) with (-1). lia.
  - change (String x a +:+ b) with (String x (a +:+ b)).
    change (String.length (String x a)) with (S (String.length a)).
    rewrite !rfind_cons, IH.
    pose proof (rfind_range c a). pose proof (rfind_range c b).
    destruct (Z.leb_spec 0 (rfind c b)).
    + destruct (Z.leb_spec 0 (Z.of_nat (String.length a) + rfind c b)); lia.
    + reflexivity.
Qed.

Lemma substring_0_length (n : nat) (s : string) :
  (n <= String.length s)%nat -> String.length (String.substring 0 n s) = n.
Proof.
  revert s. induction n as [|n IH]; intros [|a s] H; cbn in *; try lia.
  rewrite IH by lia. reflexivity.
Qed.

Lemma append_cons (a : Ascii.ascii) (s t : string) :
  String a s +:+ t = String a (s +:+ t).
Proof. reflexivity. Qed.

Lemma append_nil_l (t : string) : EmptyString +:+ t = t.
Proof. reflexivity. Qed.

Lemma substring_all (s : string) :
  String.substring 0 (String.length s) s = s.
Proof.
  induction s as [|a s IH]; cbn; [reflexivity|].
  f_equal. exact IH.
Qed.

Lemma substring_0_0 (s : string) : String.substring 0 0 s = EmptyString.
Proof. destruct s; reflexivity. Qed.

Lemma substring_split (n : nat) (s : string) :
  (n <= String.length s)%nat ->
  String.substring 0 n s +:+ String.substring n (String.length s - n) s = s.
Proof.
  revert s. induction n as [|n IH]; intros s H.
  - rewrite Nat.sub_0_r, substring_0_0, substring_all. reflexivity.
  - destruct s as [|a s]; cbn in *; [lia|].
    rewrite append_cons. f_equal. apply IH. lia.
Qed.

Lemma substring_app_skip (a b : string) (i n : nat) :
  String.substring (String.length a + i) n (a +:+ b) = String.substring i n b.
Proof.
  induction a as [|x a IH]; [reflexivity|].
  rewrite append_cons. cbn. exact IH.
Qed.

Lemma substring_0_app (a b : string) (n : nat) :
  String.substring 0 (String.length a + n) (a +:+ b) = a +:+ String.substring 0 n b.
Proof.
  induction a as [|x a IH]; [reflexivity|].
  rewrite !append_cons. cbn. f_equal. exact IH.
Qed.

Lemma length_append (a b : string) :
  String.length (a +:+ b) = (String.length a + String.length b)%nat.
Proof.
  induction a as [|x a IH]; [reflexivity|].
  rewrite append_cons. cbn. rewrite IH. reflexivity.
Qed.

Lemma append_assoc (a b c : string) : (a +:+ b) +:+ c = a +:+ (b +:+ c).
Proof.
  induction a as [|x a IH]; [reflexivity|].
  rewrite !append_cons, IH. reflexivity.
Qed.

Lemma skip_leading_dots_app (n : nat) : forall a b : string,
  (n <= String.length b)%nat ->
  skip_leading_dots (a +:+ b) (Z.of_nat (String.length a)) n =
    negb (NamingRule.all_extsep (String.substring 0 n b)).
Proof.
  induction n as [|n IH]; intros a b Hn.
  - rewrite substring_0_0. reflexivity.
  - destruct b as [|x b]; cbn [String.length] in Hn; [lia|].
    cbn [skip_leading_dots]. unfold not_extsep_at.
    rewrite Nat2Z.id.
    replace (String.length a) with (String.length a + 0)%nat at 1 by lia.
    rewrite substring_app_skip.
    cbn [String.substring NamingRule.all_extsep]. rewrite substring_0_0.
    cbn [String.eqb].
    destruct (Ascii.eqb x extsep) eqn:Ex; cbn [negb andb].
    + replace (a +:+ String x b) with ((a +:+ String x EmptyString) +:+ b)
        by (rewrite append_assoc; reflexivity).
      replace (Z.of_nat (String.length a) + 1)
        with (Z.of_nat (String.length (a +:+ String x EmptyString)))
        by (rewrite length_append; cbn [String.length]; lia).
      rewrite IH by lia.
      destruct b; reflexivity.
    + reflexivity.
Qed.

(** [splitext] on a path cut after its last separator. *)
Lemma splitext_app (dir seg : string) :
  rfind sep (dir +:+ seg) = Z.of_nat (String.length dir) - 1 ->
  fst (splitext (dir +:+ seg)) =
    let d := rfind extsep seg in
    if (0 <=? d) && negb (NamingRule.all_extsep (slice_to seg d))
    then dir +:+ slice_to seg d
    else dir +:+ seg.
Proof.
  intros Hsep. unfold splitext. rewrite Hsep, (rfind_app extsep).
  cbv zeta.
  pose proof (rfind_range extsep seg) as Hd.
  pose proof (rfind_range extsep dir) as Hdir.
  destruct (Z.leb_spec 0 (rfind extsep seg)) as [Hpos|Hneg].
  - replace (Z.of_nat (String.length dir) + rfind extsep seg >?
             Z.of_nat (String.length dir) - 1) with true by lia.
    replace (Z.of_nat (String.length dir) - 1 + 1) with (Z.of_nat (String.length dir)) by lia.
    replace (Z.of_nat (String.length dir) + rfind extsep seg - Z.of_nat (String.length dir))
      with (rfind extsep seg) by lia.
    rewrite skip_leading_dots_app by lia.
    cbn [andb]. unfold slice_to at 1 2.
    destruct (negb _); cbn [fst]; [|reflexivity].
    unfold slice_to.
    rewrite Z2Nat.inj_add, Nat2Z.id by lia.
    apply substring_0_app.
  - replace (rfind extsep dir >? Z.of_nat (String.length dir) - 1) with false by lia.
    reflexivity.
Qed.

Lemma path_split (p : string) :
  p = NamingRule.directory_part p +:+ NamingRule.final_segment p /\
  Z.of_nat (String.length (NamingRule.directory_part p)) = rfind sep p + 1.
Proof.
  unfold NamingRule.directory_part, NamingRule.final_segment, slice_to, slice_from.
  pose proof (rfind_range sep p) as H.
  split.
  - symmetry. apply substring_split. lia.
  - rewrite substring_0_length by lia. lia.
Qed.

Theorem generate_processed_filename_cases (p : string) :
  _generate_processed_filename p =
    if NamingRule.only_leading_dots p then p +:+ "_processed.mp4"
    else NamingRule.deriveName p.
Proof.
  destruct (path_split p) as [Hp Hlen].
  unfold _generate_processed_filename. cbv zeta.
  assert (Hsplit := splitext_app (NamingRule.directory_part p) (NamingRule.final_segment p)).
  rewrite <- Hp in Hsplit. rewrite Hsplit by lia. clear Hsplit.
  unfold NamingRule.only_leading_dots, NamingRule.deriveName,
    NamingRule.stripLastExtension. cbv zeta.
  destruct (Z.leb_spec 0 (rfind extsep (NamingRule.final_segment p))) as [Hpos|Hneg];
    cbn [andb].
  - destruct (NamingRule.all_extsep _); cbn [negb].
    + reflexivity.
    + destruct (Z.ltb_spec (rfind extsep (NamingRule.final_segment p)) 0); [lia|].
      reflexivity.
  - destruct (Z.ltb_spec (rfind extsep (NamingRule.final_segment p)) 0); [|lia].
    reflexivity.
Qed.

End PathFacts.

#[local] Instance store_untouched_preorder : PreOrder store_untouched.
Proof.
  split.
  - intros w. split; reflexivity.
  - intros w1 w2 w3 [? ?] [? ?]. split; congruence.
Qed.

#[local] Instance disk_untouched_preorder : PreOrder disk_untouched.
Proof.
  split.
  - intros w. reflexivity.
  - intros w1 w2 w3. unfold disk_untouched. congruence.
Qed.

#[local] Instance only_traced_preorder : PreOrder only_traced.
Proof.
  split.
  - intros w. split; reflexivity.
  - intros w1 w2 w3 [? ?] [? ?]. split; etrans; eauto.
Qed.

Section Frames.

Context (R : relation World) `{!PreOrder R}.

Lemma keeps_ret {A} (a : A) : keeps R (ret a).
Proof. intros w. reflexivity. Qed.

Lemma keeps_raise {A} (e : Exn) : keeps R (@raise A e).
Proof. intros w. reflexivity. Qed.

Lemma keeps_read {A} (f : World -> Exn + A) : keeps R (fun w => (f w, w)).
Proof. intros w. reflexivity. Qed.

Lemma keeps_bind {A B} (m : M A) (k : A -> M B) :
  keeps R m -> (forall a, keeps R (k a)) -> keeps R (bind m k).
Proof.
  intros Hm Hk w. unfold bind. specialize (Hm w).
  destruct (m w) as [[e|a] w1]; cbn in *; [exact Hm|].
  etrans; [exact Hm|apply Hk].
Qed.

Lemma keeps_try_except {A} (m : M A) (h : Exn -> M A) :
  keeps R m -> (forall e, keeps R (h e)) -> keeps R (try_except m h).
Proof.
  intros Hm Hh w. unfold try_except. specialize (Hm w).
  destruct (m w) as [[e|a] w1]; cbn in *; [|exact Hm].
  etrans; [exact Hm|apply Hh].
Qed.

End Frames.

Lemma keeps_only_traced {A} (m : M A) :
  keeps only_traced m <-> keeps store_untouched m /\ keeps disk_untouched m.
Proof.
  split.
  - intros H. split; intros w; apply H.
  - intros [Hs Hd] w. split; [apply Hs|apply Hd].
Qed.

Create HintDb frames.

#[local] Hint Resolve keeps_ret keeps_raise keeps_read : frames.
#[local] Hint Extern 1 (PreOrder _) => typeclasses eauto : frames.

(** Decompose a computation along its binds, handlers and branches. *)
Ltac frames :=
  repeat first
    [ solve [eauto with frames typeclass_instances]
    | progress intros
    | progress cbv zeta
    | apply keeps_bind; [typeclasses eauto| |]
    | apply keeps_try_except; [typeclasses eauto| |]
    | match goal with
      | |- keeps _ (match ?x with _ => _ end) => destruct x
      end ].

Section PrimitiveFrames.

Variable env : Env.

Lemma keeps_call ev : keeps only_traced (call env ev).
Proof.
  intros w. unfold call.
  destruct (raises env (trace w) ev); repeat split; reflexivity.
Qed.

(** A primitive is one call, followed by a change to one component of
    the world. *)
Ltac primitive_frame :=
  intros w; unfold bind, ret, call;
  destruct (raises env (trace w) _); repeat split; reflexivity.

Lemma keeps_session_query_first k : keeps only_traced (session_query_first env k).
Proof. unfold session_query_first. primitive_frame. Qed.

Lemma keeps_session_rollback : keeps disk_untouched (session_rollback env).
Proof. unfold session_rollback. primitive_frame. Qed.

Lemma keeps_session_commit : keeps disk_untouched (session_commit env).
Proof. unfold session_commit. primitive_frame. Qed.

Lemma keeps_blob_exists_call p : keeps only_traced (blob_exists_call env p).
Proof. unfold blob_exists_call. primitive_frame. Qed.

Lemma keeps_blob_download_to_file p : keeps only_traced (blob_download_to_file env p).
Proof. unfold blob_download_to_file. primitive_frame. Qed.

Lemma keeps_blob_upload_from_file p c d :
  keeps only_traced (blob_upload_from_file env p c d).
Proof. unfold blob_upload_from_file. apply keeps_call. Qed.

Lemma keeps_blob_generate_signed_url p :
  keeps only_traced (blob_generate_signed_url env p).
Proof. unfold blob_generate_signed_url. primitive_frame. Qed.

Lemma keeps_NamedTemporaryFile sfx : keeps store_untouched (NamedTemporaryFile env sfx).
Proof. unfold NamedTemporaryFile. primitive_frame. Qed.

Lemma keeps_file_write p d : keeps store_untouched (file_write env p d).
Proof. unfold file_write. primitive_frame. Qed.

Lemma keeps_write_videofile p : keeps store_untouched (write_videofile env p).
Proof. unfold write_videofile. primitive_frame. Qed.

Lemma keeps_os_path_exists p : keeps only_traced (os_path_exists p).
Proof. intros w. repeat split; reflexivity. Qed.

Lemma keeps_open_rb p : keeps only_traced (open_rb env p).
Proof.
  intros w. unfold open_rb, bind, call.
  destruct (raises env (trace w) _); [repeat split; reflexivity|].
  cbn. destruct (disk w !! p); repeat split; reflexivity.
Qed.

Lemma keeps_os_remove p : keeps store_untouched (os_remove env p).
Proof. unfold os_remove. primitive_frame. Qed.

End PrimitiveFrames.

(** What keeps everything but the trace keeps each part. *)
Lemma only_traced_store {A} (m : M A) : keeps only_traced m -> keeps store_untouched m.
Proof. intros H. apply keeps_only_traced in H. tauto. Qed.

Lemma only_traced_disk {A} (m : M A) : keeps only_traced m -> keeps disk_untouched m.
Proof. intros H. apply keeps_only_traced in H. tauto. Qed.

#[local] Hint Resolve keeps_call keeps_session_query_first keeps_session_rollback
  keeps_session_commit keeps_blob_exists_call keeps_blob_download_to_file
  keeps_blob_upload_from_file keeps_blob_generate_signed_url
  keeps_NamedTemporaryFile keeps_file_write keeps_write_videofile
  keeps_os_path_exists keeps_open_rb keeps_os_remove : frames.
#[local] Hint Resolve only_traced_store only_traced_disk | 10 : frames.

Section ServiceFrames.

Variable config : Config.
Variable env : Env.
Variable logo_path : string.

Lemma keeps_download_file f d :
  keeps only_traced (CloudStorageService.download_file env f d).
Proof. unfold CloudStorageService.download_file. frames. Qed.

Lemma keeps_get_file_url f d :
  keeps only_traced (CloudStorageService.get_file_url config env f d).
Proof. unfold CloudStorageService.get_file_url. frames. Qed.

Hint Resolve keeps_download_file keeps_get_file_url : frames.

Lemma keeps_upload_file fs f d :
  keeps only_traced (CloudStorageService.upload_file config env fs f d).
Proof. unfold CloudStorageService.upload_file. frames. Qed.

Hint Resolve keeps_upload_file : frames.

Lemma keeps_get_visit_client_by_id k :
  keeps only_traced (VideoProcessorService._get_visit_client_by_id env k).
Proof. unfold VideoProcessorService._get_visit_client_by_id. frames. Qed.

Lemma keeps_download_video f :
  keeps only_traced (VideoProcessorService._download_video_from_storage config env f).
Proof.
  unfold VideoProcessorService._download_video_from_storage,
    VideoProcessorService.config_BUCKET_FOLDER_VIDEOS.
  frames.
Qed.

Lemma keeps_process_video_with_logo c f :
  keeps store_untouched (VideoProcessorService._process_video_with_logo env logo_path c f).
Proof. unfold VideoProcessorService._process_video_with_logo. frames. Qed.

Lemma keeps_upload_processed_video p f :
  keeps only_traced (VideoProcessorService._upload_processed_video config env p f).
Proof. unfold VideoProcessorService._upload_processed_video. frames. Qed.

Lemma keeps_cleanup_file p :
  keeps store_untouched (VideoProcessorService.cleanup_file env p).
Proof. unfold VideoProcessorService.cleanup_file. frames. Qed.

Hint Resolve keeps_cleanup_file : frames.

Lemma keeps_cleanup_temp_files paths :
  keeps store_untouched (VideoProcessorService._cleanup_temp_files env paths).
Proof.
  induction paths as [|p paths IH]; cbn [VideoProcessorService._cleanup_temp_files];
    frames.
Qed.

Hint Resolve keeps_get_visit_client_by_id keeps_download_video
  keeps_process_video_with_logo keeps_upload_processed_video
  keeps_cleanup_temp_files : frames.

Lemma keeps_process_until_content k :
  keeps only_traced (VideoProcessorService.process_until_content config env k).
Proof. unfold VideoProcessorService.process_until_content. frames. Qed.

Hint Resolve keeps_process_until_content : frames.

Lemma keeps_process_until_paths k :
  keeps store_untouched (VideoProcessorService.process_until_paths config env logo_path k).
Proof. unfold VideoProcessorService.process_until_paths. frames. Qed.

End ServiceFrames.

(* ===================================================================== *)
(** ** Cleanup                                                            *)
(* ===================================================================== *)

Lemma truthy_Some (s : string) : truthy (Some s) = true <-> s <> EmptyString.
Proof. destruct s; cbn; split; congruence. Qed.

Lemma append_nonempty_r (a b : string) : b <> EmptyString -> a +:+ b <> EmptyString.
Proof.
  intros Hb. destruct a as [|x a]; [exact Hb|].
  rewrite PathFacts.append_cons. discriminate.
Qed.

Section CleanupFacts.

Variable env : Env.

Lemma cleanup_file_spec (file_path : option string) (w : World) :
  exists w', VideoProcessorService.cleanup_file env file_path w = (inr tt, w') /\
             cleanup_post env [file_path] w w'.
Proof.
  unfold VideoProcessorService.cleanup_file.
  destruct (truthy file_path) eqn:Htruthy.
  - destruct file_path as [p|]; [|discriminate].
    unfold os_path_exists, os_remove, try_except, call, bind, ret. cbn.
    destruct (bool_decide (is_Some (disk w !! p))) eqn:Hpresent.
    + destruct (raises env (trace w) (EvRemove p)) eqn:Hraise.
      * eexists. split; [reflexivity|]. repeat split.
        -- intros q Hq. exact Hq.
        -- intros p' Hin _ Hok. apply list_elem_of_singleton in Hin.
           injection Hin as ->. rewrite Hok in Hraise. discriminate.
        -- exists [EvRemove p]. split; [reflexivity|].
           constructor; [eexists; reflexivity|constructor].
      * eexists. split; [reflexivity|]. repeat split.
        -- intros q Hq. cbn. destruct (decide (p = q)) as [->|Hne].
           ++ apply lookup_delete_eq.
           ++ rewrite lookup_delete_ne by exact Hne. exact Hq.
        -- intros p' Hin _ _. apply list_elem_of_singleton in Hin.
           injection Hin as ->. cbn. apply lookup_delete_eq.
        -- exists [EvRemove p]. split; [reflexivity|].
           constructor; [eexists; reflexivity|constructor].
    + eexists. split; [reflexivity|]. repeat split.
      * intros q Hq. exact Hq.
      * intros p' Hin _ _. apply list_elem_of_singleton in Hin.
        injection Hin as ->. apply bool_decide_eq_false in Hpresent.
        apply eq_None_not_Some. exact Hpresent.
      * exists []. split; [symmetry; apply app_nil_r|constructor].
  - exists w. split; [reflexivity|]. repeat split.
    + intros q Hq. exact Hq.
    + intros p' Hin Hne _. apply list_elem_of_singleton in Hin. subst file_path.
      apply truthy_Some in Hne. congruence.
    + exists []. split; [symmetry; apply app_nil_r|constructor].
Qed.

Lemma cleanup_temp_files_spec (paths : list (option string)) : forall w,
  exists w', VideoProcessorService._cleanup_temp_files env paths w = (inr tt, w') /\
             cleanup_post env paths w w'.
Proof.
  induction paths as [|fp paths IH]; intros w;
    cbn [VideoProcessorService._cleanup_temp_files].
  - exists w. split; [reflexivity|]. repeat split.
    + intros q Hq. exact Hq.
    + intros p Hin. apply elem_of_nil in Hin. destruct Hin.
    + exists []. split; [symmetry; apply app_nil_r|constructor].
  - destruct (cleanup_file_spec fp w) as (w1 & E1 & Hadd1 & Hrm1 & t1 & Ht1 & Hall1).
    destruct (IH w1) as (w2 & E2 & Hadd2 & Hrm2 & t2 & Ht2 & Hall2).
    exists w2. unfold bind. rewrite E1. split; [exact E2|]. repeat split.
    + intros q Hq. apply Hadd2, Hadd1, Hq.
    + intros p Hin Hne Hok. apply elem_of_cons in Hin as [Hhead|Htail].
      * apply Hadd2, Hrm1; [subst fp; apply list_elem_of_singleton; reflexivity|exact Hne|exact Hok].
      * apply Hrm2; assumption.
    + exists (t1 ++ t2). split.
      * rewrite Ht2, Ht1, app_assoc. reflexivity.
      * apply Forall_app. split; assumption.
Qed.

End CleanupFacts.

(* ===================================================================== *)
(** ** Persisting the outcome                                             *)
(* ===================================================================== *)

(** Case analysis on what the computation on the left of [H] inspects
    first: the innermost scrutinee along the heads of its matches. *)
Ltac match_head T :=
  lazymatch T with
  | match ?x with _ => _ end => x
  | ?f _ => match_head f
  end.

Ltac head_discriminee T :=
  let x := match_head T in
  match constr:(Set) with
  | _ => head_discriminee x
  | _ => x
  end.

Ltac step_in_goal :=
  match goal with
  | |- context [match ?x with _ => _ end] =>
      let d := match constr:(Set) with
               | _ => head_discriminee x
               | _ => x
               end in
      destruct d eqn:?
  end.

Ltac step_in H :=
  lazymatch type of H with
  | ?lhs = _ =>
      let d := head_discriminee lhs in
      destruct d eqn:?; cbn in H
  end.

Section UpdateFacts.

Variable env : Env.

Lemma update_failure id pf url w e w' :
  VideoProcessorService._update_visit_client_record env id pf url w = (inl e, w') ->
  db w' = db w /\ disk w' = disk w /\
  exists t, trace w' = trace w ++ t ++ [EvRollback].
Proof.
  unfold VideoProcessorService._update_visit_client_record,
    VideoProcessorService._get_visit_client_by_id, session_query_first,
    session_commit, session_rollback, session_set, try_except, call, bind, raise.
  cbn. intros H.
  repeat step_in H.
  all: try discriminate.
  all: injection H as <- <-; cbn; repeat split.
  all: try (eexists [_; _]; rewrite <- !app_assoc; reflexivity).
  all: try (eexists [_]; rewrite <- !app_assoc; reflexivity).
Qed.

Lemma update_success id pf url w w' :
  VideoProcessorService._update_visit_client_record env id pf url w = (inr tt, w') ->
  exists r,
    session_view w id = Some r /\
    db w' = <[id := VideoProcessorService.mark_processed r pf url
                      (utcnow env (trace w ++ [EvQuery id]))]> (session w) ∪ db w /\
    session w' = ∅ /\ disk w' = disk w.
Proof.
  unfold VideoProcessorService._update_visit_client_record,
    VideoProcessorService._get_visit_client_by_id, session_query_first,
    session_commit, session_rollback, session_set, try_except, call, bind, raise.
  cbn. intros H.
  repeat step_in H.
  all: try discriminate.
  injection H as <-. eexists. repeat split.
  match goal with E : session_view _ _ = Some _ |- _ => exact E end.
Qed.

End UpdateFacts.

Lemma session_view_untouched (w w' : World) (k : Z) :
  store_untouched w w' -> session_view w' k = session_view w k.
Proof. intros [Hdb Hs]. unfold session_view. rewrite Hdb, Hs. reflexivity. Qed.

Lemma generate_processed_filename_nonempty (f : string) :
  _generate_processed_filename f <> EmptyString.
Proof. apply append_nonempty_r. discriminate. Qed.

(* ===================================================================== *)
(** ** The run as a whole                                                 *)
(* ===================================================================== *)

Section ProcessFacts.

Variable config : Config.
Variable env : Env.
Variable logo_path : string.

Local Abbreviation process := (VideoProcessorService.process_video_by_visit_client_id config env logo_path).
Local Abbreviation process_until_content := (VideoProcessorService.process_until_content config env).
Local Abbreviation process_until_paths := (VideoProcessorService.process_until_paths config env logo_path).
Local Abbreviation process_from_paths := (VideoProcessorService.process_from_paths config env).

Lemma process_fails_early id w e w1 :
  process_until_paths id w = (inl e, w1) ->
  process id w = (inl (Exception ("Error al procesar video: " +:+ str e)), w1).
Proof.
  intros H. unfold VideoProcessorService.process_video_by_visit_client_id.
  rewrite H. reflexivity.
Qed.

Lemma process_continues id w f v p w1 o w2 :
  process_until_paths id w = (inr (f, (v, p)), w1) ->
  process_from_paths id f p w1 = (o, w2) ->
  process id w =
    (VideoProcessorService.reraise_wrapped o,
     snd (VideoProcessorService._cleanup_temp_files env [Some v; Some p] w2)).
Proof.
  intros H1 H2. unfold VideoProcessorService.process_video_by_visit_client_id.
  rewrite H1, H2.
  destruct (cleanup_temp_files_spec env [Some v; Some p] w2) as (w3 & E & _).
  rewrite E. reflexivity.
Qed.

Lemma until_content_fails_early id w e w1 :
  process_until_content id w = (inl e, w1) ->
  process_until_paths id w = (inl e, w1).
Proof.
  intros H. unfold VideoProcessorService.process_until_paths, bind.
  rewrite H. reflexivity.
Qed.

Lemma until_content_success id w f c w1 :
  process_until_content id w = (inr (f, c), w1) ->
  exists r0,
    raises env (trace w) (EvQuery id) = None /\
    session_view w id = Some r0 /\
    db_models.filename r0 = Some f /\ f <> EmptyString /\
    truthy (db_models.filename_url r0) = true /\
    VideoProcessorService._download_video_from_storage config env f
      (log (EvQuery id) w) = (inr c, w1).
Proof.
  unfold VideoProcessorService.process_until_content,
    VideoProcessorService._get_visit_client_by_id, session_query_first,
    call, bind, raise, ret.
  cbn. intros H.
  repeat step_in H.
  all: try discriminate.
  injection H as <- <- <-.
  match goal with E : _ || _ = false |- _ =>
    apply orb_false_elim in E as [E1 E2];
    apply negb_false_iff in E1; apply negb_false_iff in E2 end.
  eexists. repeat split; try eassumption.
  - destruct (db_models.filename _) as [f|]; [reflexivity|discriminate].
  - destruct (db_models.filename _) as [f|]; [|discriminate].
    apply truthy_Some. assumption.
Qed.

Lemma download_video_success f w c w1 :
  VideoProcessorService._download_video_from_storage config env f w = (inr c, w1) ->
  is_Some (BUCKET_FOLDER_VIDEOS config).
Proof.
  unfold VideoProcessorService._download_video_from_storage,
    VideoProcessorService.config_BUCKET_FOLDER_VIDEOS, try_except, bind, raise.
  destruct (BUCKET_FOLDER_VIDEOS config); [eauto|].
  cbn. discriminate.
Qed.

Lemma until_paths_success id w f v p w1 :
  process_until_paths id w = (inr (f, (v, p)), w1) ->
  exists c w0,
    process_until_content id w = (inr (f, c), w0) /\
    VideoProcessorService._process_video_with_logo env logo_path c f w0
      = (inr (v, p), w1).
Proof.
  unfold VideoProcessorService.process_until_paths, bind, ret. intros H.
  destruct (process_until_content id w) as [[e|[f' c]] w0] eqn:E0; [discriminate|].
  cbn [fst snd] in H.
  destruct (VideoProcessorService._process_video_with_logo env logo_path c f' w0)
    as [[e|[v' p']] w1'] eqn:E1; [discriminate|].
  injection H as <- <- <- <-. exists c, w0. split; [reflexivity|exact E1].
Qed.

Lemma from_paths_failure id f p w1 e w2 :
  process_from_paths id f p w1 = (inl e, w2) -> db w2 = db w1.
Proof.
  unfold VideoProcessorService.process_from_paths, bind, ret. intros H.
  pose proof (keeps_upload_processed_video config env p
                (_generate_processed_filename f) w1) as [[Hdb _] _].
  destruct (VideoProcessorService._upload_processed_video config env p _ w1)
    as [[e1|url] wu]; cbn [snd] in Hdb.
  - injection H as <- <-. exact Hdb.
  - destruct (VideoProcessorService._update_visit_client_record env id _ url wu)
      as [[e2|[]] w3] eqn:Eu; [|discriminate].
    injection H as <- <-.
    apply update_failure in Eu as [Hdb' _]. congruence.
Qed.

Lemma from_paths_success id f p w1 r w2 :
  process_from_paths id f p w1 = (inr r, w2) ->
  exists url wu,
    VideoProcessorService._upload_processed_video config env p
      (_generate_processed_filename f) w1 = (inr url, wu) /\
    VideoProcessorService._update_visit_client_record env id
      (_generate_processed_filename f) url wu = (inr tt, w2) /\
    r = {| res_visit_client_id := id;
           res_original_filename := f;
           res_processed_filename := _generate_processed_filename f;
           res_processed_url := url;
           res_status := "Procesado" |}.
Proof.
  unfold VideoProcessorService.process_from_paths, bind, ret. intros H.
  destruct (VideoProcessorService._upload_processed_video config env p _ w1)
    as [[e1|url] wu] eqn:Eup; [discriminate|].
  destruct (VideoProcessorService._update_visit_client_record env id _ url wu)
    as [[e2|[]] w3] eqn:Eu; [discriminate|].
  injection H as <- <-. exists url, wu. split; [reflexivity|].
  split; [exact Eu|reflexivity].
Qed.

Lemma process_failure_keeps_db id w e w' :
  process id w = (inl e, w') -> db w' = db w.
Proof.
  intros H.
  destruct (process_until_paths id w) as [[e1|[f [v p]]] w1] eqn:E1.
  - rewrite (process_fails_early _ _ _ _ E1) in H. injection H as _ <-.
    pose proof (keeps_process_until_paths config env logo_path id w) as [Hdb _].
    rewrite E1 in Hdb. exact Hdb.
  - destruct (process_from_paths id f p w1) as [o w2] eqn:E2.
    rewrite (process_continues _ _ _ _ _ _ _ _ E1 E2) in H.
    injection H as Ho <-.
    pose proof (keeps_process_until_paths config env logo_path id w) as [Hdb1 _].
    rewrite E1 in Hdb1. cbn [snd] in Hdb1.
    pose proof (keeps_cleanup_temp_files env [Some v; Some p] w2) as [Hdb3 _].
    destruct o as [e2|r]; [|discriminate].
    apply from_paths_failure in E2.
    etrans; [exact Hdb3|]. congruence.
Qed.

(** Everything a run that returns a result went through. *)
Lemma process_success_inversion id w res w' :
  process id w = (inr res, w') ->
  exists (r0 : Row) (f : string) (url : option string) (now : Z),
    is_Some (BUCKET_FOLDER_VIDEOS config) /\
    session_view w id = Some r0 /\
    db_models.filename r0 = Some f /\ f <> EmptyString /\
    truthy (db_models.filename_url r0) = true /\
    res = {| res_visit_client_id := id;
             res_original_filename := f;
             res_processed_filename := _generate_processed_filename f;
             res_processed_url := url;
             res_status := "Procesado" |} /\
    db w' = <[id := VideoProcessorService.mark_processed r0
                      (_generate_processed_filename f) url now]> (session w) ∪ db w /\
    session w' = ∅.
Proof.
  intros H.
  destruct (process_until_paths id w) as [[e1|[f [v p]]] w1] eqn:E1.
  { rewrite (process_fails_early _ _ _ _ E1) in H. discriminate. }
  destruct (process_from_paths id f p w1) as [o w2] eqn:E2.
  rewrite (process_continues _ _ _ _ _ _ _ _ E1 E2) in H.
  pose proof (keeps_cleanup_temp_files env [Some v; Some p] w2) as [Hdb3 Hs3].
  destruct (VideoProcessorService._cleanup_temp_files env [Some v; Some p] w2)
    as [o3 w3]. cbn [snd] in H, Hdb3, Hs3.
  injection H as Ho ->.
  destruct o as [e2|r]; [discriminate|]. cbn in Ho. injection Ho as ->.
  apply from_paths_success in E2 as (url & wu & Hup & Hupd & ->).
  apply update_success in Hupd as (r & Hview & Hdb2 & Hs2 & _).
  pose proof (keeps_process_until_paths config env logo_path id w) as Hk1.
  rewrite E1 in Hk1. cbn [snd] in Hk1.
  pose proof (keeps_upload_processed_video config env p
                (_generate_processed_filename f) w1) as [Hk2 _].
  rewrite Hup in Hk2. cbn [snd] in Hk2.
  rewrite (session_view_untouched w1 wu), (session_view_untouched w w1) in Hview
    by assumption.
  apply until_paths_success in E1 as (c & w0 & Hcontent & _).
  apply until_content_success in Hcontent as (r0 & _ & Hview0 & Hf & Hne & Hurl & Hdl).
  apply download_video_success in Hdl.
  assert (r = r0) as -> by congruence.
  exists r0, f, url, (utcnow env (trace wu ++ [EvQuery id])).
  repeat split; try assumption.
  - rewrite Hdb3, Hdb2.
    destruct Hk1 as [Hd1 Hse1]. destruct Hk2 as [Hd2 Hse2].
    rewrite Hse2, Hse1, Hd2, Hd1. reflexivity.
  - congruence.
Qed.

End ProcessFacts.


Section CompositionFacts.

Variable env : Env.
Variable logo_path : string.

(** The two paths a composition returns are names of temporary files,
    so they are not empty. *)
Lemma process_video_with_logo_paths c f w0 v p w1 :
  VideoProcessorService._process_video_with_logo env logo_path c f w0
    = (inr (v, p), w1) ->
  v <> EmptyString /\ p <> EmptyString.
Proof.
  unfold VideoProcessorService._process_video_with_logo, NamedTemporaryFile,
    file_write, write_videofile, os_path_exists, try_except, call, bind, raise, ret.
  cbn. intros H.
  repeat step_in H.
  all: try discriminate.
  injection H as <- <- _.
  split; apply append_nonempty_r; discriminate.
Qed.

End CompositionFacts.

Lemma final_segment_has_no_sep (p : string) :
  PosixPath.rfind PosixPath.sep (NamingRule.final_segment p) = -1.
Proof.
  destruct (PathFacts.path_split p) as [Hp Hlen].
  pose proof (PathFacts.rfind_app PosixPath.sep (NamingRule.directory_part p)
                (NamingRule.final_segment p)) as Happ.
  rewrite <- Hp in Happ.
  pose proof (PathFacts.rfind_range PosixPath.sep (NamingRule.final_segment p)).
  destruct (Z.leb_spec 0 (PosixPath.rfind PosixPath.sep (NamingRule.final_segment p))); lia.
Qed.

Lemma generate_keeps_directory (p : string) :
  _generate_processed_filename p =
    NamingRule.directory_part p +:+ _generate_processed_filename (NamingRule.final_segment p).
Proof.
  destruct (PathFacts.path_split p) as [Hp Hlen].
  unfold _generate_processed_filename. cbv zeta.
  rewrite Hp at 1.
  rewrite (PathFacts.splitext_app (NamingRule.directory_part p)
             (NamingRule.final_segment p)) by (rewrite <- Hp; lia).
  assert (Hseg := PathFacts.splitext_app EmptyString (NamingRule.final_segment p)).
  rewrite PathFacts.append_nil_l in Hseg.
  rewrite Hseg by (rewrite final_segment_has_no_sep; reflexivity). clear Hseg.
  cbv zeta. rewrite !PathFacts.append_nil_l.
  destruct (_ && _); apply PathFacts.append_assoc.
Qed.

(** With a configuration object that does have [BUCKET_FOLDER_VIDEOS], the
    download step asks the bucket for [f"{folder}/{filename}"], downloads
    it at most once, and wraps every failure in its own message. *)
Lemma download_video_calls (config : Config) (env : Env) (f folder : string)
    (w : World) (o : Exn + bytes) (w' : World) :
  BUCKET_FOLDER_VIDEOS config = Some folder -> folder <> EmptyString ->
  VideoProcessorService._download_video_from_storage config env f w = (o, w') ->
  let path := CloudStorageService.join folder f in
  let calls := [EvBucket; EvBlobExists path; EvBlobDownload path] in
  match o with
  | inl e =>
      (exists cause,
          e = Exception ("Error al descargar video desde Cloud Storage: " +:+ cause)) /\
      (exists t, trace w' = trace w ++ t /\ t `prefix_of` calls)
  | inr content =>
      trace w' = trace w ++ calls /\
      content = blob_content env (trace w ++ [EvBucket; EvBlobExists path]) path
  end.
Proof.
  intros Hfolder Hne. apply truthy_Some in Hne.
  unfold VideoProcessorService._download_video_from_storage,
    VideoProcessorService.config_BUCKET_FOLDER_VIDEOS,
    CloudStorageService.download_file, blob_exists_call, blob_download_to_file,
    try_except, call, bind, raise, ret.
  rewrite Hfolder. cbn [default from_option id]. rewrite Hne.
  cbn. intros H. repeat step_in H.
  all: injection H as <- <-; cbn; rewrite <- ?app_assoc; cbn [app].
  all: split; try reflexivity.
  all: try (eexists; reflexivity).
  all: eexists; split; [reflexivity|eexists; reflexivity].
Qed.

(* ===================================================================== *)
(** ** Runs in which every collaborator answers                           *)
(* ===================================================================== *)

Lemma is_Some_lookup_insert {V} (m : gmap string V) (j k : string) (x : V) :
  is_Some (m !! k) -> is_Some (<[j := x]> m !! k).
Proof.
  intros H. destruct (decide (j = k)) as [->|Hne].
  - rewrite lookup_insert_eq. eauto.
  - rewrite lookup_insert_ne by exact Hne. exact H.
Qed.

Section Cooperative.

Variable config : Config.
Variable env : Env.
Variable logo_path : string.
Hypothesis Hco : cooperative config env.

Local Abbreviation process :=
  (VideoProcessorService.process_video_by_visit_client_id config env logo_path).

Lemma until_content_returns id w r0 f folder :
  BUCKET_FOLDER_VIDEOS config = Some folder ->
  session_view w id = Some r0 ->
  db_models.filename r0 = Some f -> f <> EmptyString ->
  truthy (db_models.filename_url r0) = true ->
  exists c w1,
    VideoProcessorService.process_until_content config env id w = (inr (f, c), w1) /\
    only_traced w w1.
Proof.
  destruct Hco as (Hr & Hex & _).
  intros Hfolder Hview Hf Hne Hurl.
  pose proof (keeps_process_until_content config env id w) as Hk.
  revert Hk.
  unfold VideoProcessorService.process_until_content,
    VideoProcessorService._get_visit_client_by_id, session_query_first,
    VideoProcessorService._download_video_from_storage,
    VideoProcessorService.config_BUCKET_FOLDER_VIDEOS,
    CloudStorageService.download_file, blob_exists_call, blob_download_to_file,
    try_except, call, bind, raise, ret.
  rewrite Hfolder. cbn. rewrite Hr. cbn.
  change (session_view (log (EvQuery id) w) id) with (session_view w id).
  rewrite Hview, Hf, Hurl. apply truthy_Some in Hne. rewrite Hne. cbn.
  rewrite ?Hr. cbn. rewrite Hex. cbn. rewrite ?Hr. cbn.
  intros Hk. eexists _, _. split; [reflexivity|exact Hk].
Qed.

Lemma composition_returns c f w1 :
  is_Some (disk w1 !! logo_path) ->
  exists v p w2 h,
    VideoProcessorService._process_video_with_logo env logo_path c f w1
      = (inr (v, p), w2) /\
    store_untouched w1 w2 /\
    disk w2 !! p = Some (encoded_video env h p).
Proof.
  destruct Hco as (Hr & _ & _).
  intros Hlogo.
  pose proof (keeps_process_video_with_logo env logo_path c f w1) as Hk.
  revert Hk.
  unfold VideoProcessorService._process_video_with_logo, NamedTemporaryFile,
    file_write, write_videofile, os_path_exists, try_except, call, bind, raise, ret.
  cbn. rewrite ?Hr. cbn. rewrite ?Hr. cbn.
  rewrite bool_decide_eq_true_2
    by (apply is_Some_lookup_insert, is_Some_lookup_insert, Hlogo).
  cbn. rewrite ?Hr. cbn. rewrite ?Hr. cbn.
  intros Hk. eexists _, _, _, _. split; [reflexivity|]. split; [exact Hk|].
  cbn. apply lookup_insert_eq.
Qed.

Lemma upload_returns p name w2 data :
  disk w2 !! p = Some data ->
  Z.of_nat (length data) <= MAX_CONTENT_LENGTH config ->
  name <> EmptyString ->
  exists url w3,
    VideoProcessorService._upload_processed_video config env p name w2
      = (inr url, w3) /\
    only_traced w2 w3.
Proof.
  destruct Hco as (Hr & Hex & _).
  intros Hdisk Hsize Hname.
  pose proof (keeps_upload_processed_video config env p name w2) as Hk.
  revert Hk.
  unfold VideoProcessorService._upload_processed_video, open_rb,
    CloudStorageService.upload_file, CloudStorageService.get_file_url,
    blob_upload_from_file, blob_exists_call, blob_generate_signed_url,
    try_except, call, bind, raise, ret.
  cbn. rewrite ?Hr. cbn.
  rewrite Hdisk. cbn.
  apply String.eqb_neq in Hname. rewrite Hname.
  replace (Z.of_nat (length data) >? MAX_CONTENT_LENGTH config) with false by lia.
  cbn. rewrite ?Hr. cbn. rewrite ?Hr. cbn. rewrite ?Hr. cbn.
  rewrite Hex. cbn. rewrite ?Hr. cbn. rewrite ?Hr. cbn.
  intros Hk. eexists _, _. split; [reflexivity|exact Hk].
Qed.

Lemma update_returns id name url w3 r :
  session_view w3 id = Some r ->
  exists w4,
    VideoProcessorService._update_visit_client_record env id name url w3
      = (inr tt, w4).
Proof.
  destruct Hco as (Hr & _ & _).
  intros Hview.
  unfold VideoProcessorService._update_visit_client_record,
    VideoProcessorService._get_visit_client_by_id, session_query_first,
    session_commit, session_rollback, session_set, try_except, call, bind, raise.
  cbn. rewrite ?Hr. cbn.
  change (session_view (log (EvQuery id) w3) id) with (session_view w3 id).
  rewrite Hview. cbn. rewrite ?Hr. cbn.
  eexists. reflexivity.
Qed.

(** With a configured source folder, a record that has a video and the
    logo on disk, the run returns a result. *)
Lemma process_returns id w r0 f folder :
  BUCKET_FOLDER_VIDEOS config = Some folder ->
  session_view w id = Some r0 ->
  db_models.filename r0 = Some f -> f <> EmptyString ->
  truthy (db_models.filename_url r0) = true ->
  is_Some (disk w !! logo_path) ->
  exists res w', process id w = (inr res, w').
Proof.
  intros Hfolder Hview Hf Hne Hurl Hlogo.
  destruct (until_content_returns id w r0 f folder Hfolder Hview Hf Hne Hurl)
    as (c & w0 & Hcontent & Hs0 & Hd0).
  assert (Hlogo0 : is_Some (disk w0 !! logo_path)) by (rewrite Hd0; exact Hlogo).
  destruct (composition_returns c f w0 Hlogo0) as (v & p & w1 & h & Hcomp & Hs1 & Hdisk1).
  destruct Hco as (_ & _ & Hsize).
  destruct (upload_returns p (_generate_processed_filename f) w1 _ Hdisk1 (Hsize h p)
              (generate_processed_filename_nonempty f))
    as (url & w2 & Hup & Hs2 & _).
  assert (Hview2 : session_view w2 id = Some r0).
  { rewrite (session_view_untouched w1 w2), (session_view_untouched w0 w1),
      (session_view_untouched w w0) by assumption. exact Hview. }
  destruct (update_returns id (_generate_processed_filename f) url w2 r0 Hview2)
    as (w3 & Hupd).
  assert (Hpaths :
    VideoProcessorService.process_until_paths config env logo_path id w
    = (inr (f, (v, p)), w1)).
  { unfold VideoProcessorService.process_until_paths, bind, ret.
    rewrite Hcontent. cbn [fst snd]. rewrite Hcomp. reflexivity. }
  assert (Hfrom :
    exists res, VideoProcessorService.process_from_paths config env id f p w1
                = (inr res, w3)).
  { unfold VideoProcessorService.process_from_paths, bind, ret.
    rewrite Hup, Hupd. eexists. reflexivity. }
  destruct Hfrom as (res & Hfrom).
  rewrite (process_continues _ _ _ _ _ _ _ _ _ _ _ Hpaths Hfrom).
  eexists _, _. reflexivity.
Qed.

End Cooperative.

(* ===================================================================== *)
(** ** The claims                                                         *)
(* ===================================================================== *)

(** C1. A run that fails leaves every committed row as it was, so no
    [file_status] is set by it; and when the failure is in the persist
    step, after the lookup, the check, the download, the composition, the
    naming and the upload have completed, [session.rollback()] is called
    before the run returns, followed by nothing but the removal of the
    temporary files. *)
Theorem failure_leaves_record_untouched
    (config : Config) (env : Env) (logo_path : string)
    (visit_client_id : Z) (w : World) (e : Exn) (w' : World) :
  VideoProcessorService.process_video_by_visit_client_id
    config env logo_path visit_client_id w = (inl e, w') ->
  db w' = db w /\
  (forall k, db_models.file_status <$> (db w' !! k)
             = db_models.file_status <$> (db w !! k)) /\
  (forall f v p w1 url w2,
      VideoProcessorService.process_until_paths config env logo_path visit_client_id w
        = (inr (f, (v, p)), w1) ->
      VideoProcessorService._upload_processed_video config env p
        (_generate_processed_filename f) w1 = (inr url, w2) ->
      exists t1 t2,
        trace w' = trace w2 ++ t1 ++ EvRollback :: t2 /\ Forall is_EvRemove t2).
Proof.
  intros H.
  assert (Hdb : db w' = db w) by exact (process_failure_keeps_db _ _ _ _ _ _ _ H).
  split; [exact Hdb|]. split; [intros k; rewrite Hdb; reflexivity|].
  intros f v p w1 url w2 Hpaths Hup.
  destruct (VideoProcessorService.process_from_paths config env visit_client_id f p w1)
    as [o w3] eqn:Hfrom.
  rewrite (process_continues _ _ _ _ _ _ _ _ _ _ _ Hpaths Hfrom) in H.
  destruct (cleanup_temp_files_spec env [Some v; Some p] w3)
    as (w4 & Hclean & _ & _ & t2 & Ht2 & Hall).
  rewrite Hclean in H. cbn [snd] in H.
  injection H as Ho ->.
  unfold VideoProcessorService.process_from_paths, bind in Hfrom.
  rewrite Hup in Hfrom.
  destruct (VideoProcessorService._update_visit_client_record env visit_client_id
              (_generate_processed_filename f) url w2) as [[eu|[]] wu] eqn:Hupd.
  - injection Hfrom as <- <-.
    apply update_failure in Hupd as (_ & _ & t1 & Ht1).
    exists t1, t2. split; [|exact Hall].
    rewrite Ht2, Ht1, <- !app_assoc. reflexivity.
  - injection Hfrom as <- <-. discriminate.
Qed.

Lemma commit_failure_is_rolled_back :
  exists e w',
    VideoProcessorService.process_video_by_visit_client_id
      Scenario.config Scenario.commit_fails Scenario.logo_path 1 Scenario.world
      = (inl e, w') /\
    db w' = db Scenario.world /\
    exists t1 t2, trace w' = t1 ++ EvRollback :: t2 /\ Forall is_EvRemove t2.
Proof.
  assert (Hrun : exists e w',
    VideoProcessorService.process_video_by_visit_client_id
      Scenario.config Scenario.commit_fails Scenario.logo_path 1 Scenario.world
    = (inl e, w')) by (eexists _, _; vm_compute; reflexivity).
  destruct Hrun as (e & w' & Hrun).
  exists e, w'. split; [exact Hrun|].
  destruct (failure_leaves_record_untouched _ _ _ _ _ _ _ Hrun) as (Hdb & _ & Hroll).
  split; [exact Hdb|].
  edestruct Hroll as (t1 & t2 & Ht & Hall);
    [vm_compute; reflexivity|vm_compute; reflexivity|].
  eexists (_ ++ t1), t2. split; [|exact Hall].
  rewrite Ht, <- app_assoc. reflexivity.
Defined.

(** C2. Cleanup never raises.  A run that fails before the composition
    starts leaves the disk as it was.  Once the composition has returned
    its two paths, the run returns what the rest of the [try] block
    produced, whatever happens during removal, and each of the two files
    is gone unless [os.remove] raises for it. *)
Theorem cleanup_after_composition
    (config : Config) (env : Env) (logo_path : string) :
  (forall paths w, exists w',
      VideoProcessorService._cleanup_temp_files env paths w = (inr tt, w')) /\
  (forall visit_client_id w e w1,
      VideoProcessorService.process_until_content config env visit_client_id w
        = (inl e, w1) ->
      VideoProcessorService.process_video_by_visit_client_id
        config env logo_path visit_client_id w
      = (inl (Exception ("Error al procesar video: " +:+ str e)), w1) /\
      disk w1 = disk w) /\
  (forall visit_client_id w f v p w1 o w2,
      VideoProcessorService.process_until_paths config env logo_path visit_client_id w
        = (inr (f, (v, p)), w1) ->
      VideoProcessorService.process_from_paths config env visit_client_id f p w1
        = (o, w2) ->
      exists w',
        VideoProcessorService.process_video_by_visit_client_id
          config env logo_path visit_client_id w
        = (VideoProcessorService.reraise_wrapped o, w') /\
        forall q, q = v \/ q = p ->
                  (forall h, raises env h (EvRemove q) = None) ->
                  disk w' !! q = None).
Proof.
  split; [|split].
  - intros paths w.
    destruct (cleanup_temp_files_spec env paths w) as (w' & E & _). eauto.
  - intros id w e w1 H. split.
    + apply process_fails_early, until_content_fails_early, H.
    + pose proof (keeps_process_until_content config env id w) as [_ Hdisk].
      rewrite H in Hdisk. exact Hdisk.
  - intros id w f v p w1 o w2 Hpaths Hfrom.
    rewrite (process_continues _ _ _ _ _ _ _ _ _ _ _ Hpaths Hfrom).
    destruct (cleanup_temp_files_spec env [Some v; Some p] w2)
      as (w' & E & _ & Hgone & _).
    rewrite E. exists w'. split; [reflexivity|].
    apply until_paths_success in Hpaths as (c & w0 & _ & Hcompose).
    apply process_video_with_logo_paths in Hcompose as [Hv Hp].
    intros q [-> | ->] Hok; apply Hgone; try assumption.
    + apply elem_of_cons. left. reflexivity.
    + apply elem_of_cons. right. apply elem_of_cons. left. reflexivity.
Qed.

Lemma quiet_run_removes_both_files :
  exists res w',
    VideoProcessorService.process_video_by_visit_client_id
      Scenario.config Scenario.quiet Scenario.logo_path 1 Scenario.world
    = (inr res, w') /\
    disk w' !! "/tmp/tmpab12.mp4" = None /\
    disk w' !! "/tmp/tmpab12_processed.mp4" = None.
Proof.
  destruct (cleanup_after_composition Scenario.config Scenario.quiet Scenario.logo_path)
    as (_ & _ & Hlate).
  edestruct (Hlate 1 Scenario.world) as (w' & Hrun & Hgone).
  - vm_compute. reflexivity.
  - vm_compute. reflexivity.
  - eexists _, w'. split; [exact Hrun|].
    split; apply Hgone; try (intros h; reflexivity).
    + left. reflexivity.
    + right. reflexivity.
Defined.

(** C2 as stated fails: when [os.remove] raises, the run still returns
    its result and both temporary files, created during the run, are on
    disk after it. *)
Lemma denied_removal_leaves_files :
  exists res w',
    VideoProcessorService.process_video_by_visit_client_id
      Scenario.config Scenario.remove_denied Scenario.logo_path 1 Scenario.world
    = (inr res, w') /\
    disk Scenario.world !! "/tmp/tmpab12.mp4" = None /\
    disk Scenario.world !! "/tmp/tmpab12_processed.mp4" = None /\
    disk w' !! "/tmp/tmpab12.mp4" = Some [Byte.x00; Byte.x01; Byte.x02] /\
    disk w' !! "/tmp/tmpab12_processed.mp4" = Some [Byte.x03; Byte.x04].
Proof.
  eexists _, _. split; [vm_compute; reflexivity|].
  repeat split; vm_compute; reflexivity.
Qed.

(** When the composition raises after the first temporary file was
    written, here because the logo is missing, the run fails and that file
    stays on disk: its path never reached the variable the [finally]
    block reads.  Not covered by the statement above. *)
Lemma temp_file_left_after_failed_composition :
  exists w',
    VideoProcessorService.process_video_by_visit_client_id
      Scenario.config Scenario.quiet Scenario.logo_path 1 Scenario.world_without_logo
    = (inl (Exception ("Error al procesar video: Error al procesar video: "
                       +:+ "Logo no encontrado en: /app/resources/logoMedisupply.png")),
       w') /\
    disk Scenario.world_without_logo !! "/tmp/tmpab12.mp4" = None /\
    disk w' !! "/tmp/tmpab12.mp4" = Some [Byte.x00; Byte.x01; Byte.x02].
Proof.
  eexists. split; [vm_compute; reflexivity|].
  split; vm_compute; reflexivity.
Qed.

(** C3. A run that returns a result found a record with a non-empty
    [filename]; the result carries the identifier, that file name, the name
    [splitext(filename)[0] + "_processed.mp4"] and the status
    ["Procesado"]; the committed record has [file_status = "Procesado"],
    [filename_processed] equal to the non-empty derived name and
    [filename_url_processed] equal to the URL of the result, and keeps its
    source fields. *)
Theorem success_marks_record
    (config : Config) (env : Env) (logo_path : string)
    (visit_client_id : Z) (w : World) (res : ProcessingResult) (w' : World) :
  VideoProcessorService.process_video_by_visit_client_id
    config env logo_path visit_client_id w = (inr res, w') ->
  exists (r0 : Row) (f : string) (row : Row),
    session_view w visit_client_id = Some r0 /\
    db_models.filename r0 = Some f /\ f <> EmptyString /\
    res_visit_client_id res = visit_client_id /\
    res_original_filename res = f /\
    res_processed_filename res = fst (PosixPath.splitext f) +:+ "_processed.mp4" /\
    res_processed_filename res <> EmptyString /\
    res_status res = "Procesado" /\
    db w' !! visit_client_id = Some row /\
    db_models.file_status row = Some "Procesado" /\
    db_models.filename_processed row = Some (res_processed_filename res) /\
    db_models.filename_url_processed row = res_processed_url res /\
    db_models.filename row = Some f /\
    db_models.filename_url row = db_models.filename_url r0.
Proof.
  intros H.
  apply process_success_inversion in H
    as (r0 & f & url & now & _ & Hview & Hf & Hne & _ & -> & Hdb & _).
  exists r0, f,
    (VideoProcessorService.mark_processed r0 (_generate_processed_filename f) url now).
  repeat split; try assumption.
  - apply generate_processed_filename_nonempty.
  - rewrite Hdb. apply lookup_union_Some_l. apply lookup_insert_eq.
Qed.

Lemma quiet_run_marks_record :
  exists res w' row,
    VideoProcessorService.process_video_by_visit_client_id
      Scenario.config Scenario.quiet Scenario.logo_path 1 Scenario.world
    = (inr res, w') /\
    res_processed_filename res = "clip_processed.mp4" /\
    res_status res = "Procesado" /\
    db w' !! 1 = Some row /\
    db_models.file_status row = Some "Procesado" /\
    db_models.filename_processed row = Some "clip_processed.mp4" /\
    db_models.filename_url_processed row = res_processed_url res.
Proof.
  assert (Hrun : exists res w',
    VideoProcessorService.process_video_by_visit_client_id
      Scenario.config Scenario.quiet Scenario.logo_path 1 Scenario.world
    = (inr res, w')) by (eexists _, _; vm_compute; reflexivity).
  destruct Hrun as (res & w' & Hrun).
  destruct (success_marks_record _ _ _ _ _ _ _ Hrun)
    as (r0 & f & row & Hview & Hf & _ & _ & _ & Hname & _ & Hstatus & Hrow
        & Hfs & Hfp & Hurl & _ & _).
  assert (f = "clip.mp4") as ->.
  { vm_compute in Hview. injection Hview as <-. vm_compute in Hf. congruence. }
  exists res, w', row. split; [exact Hrun|].
  rewrite Hname in Hfp.
  repeat split; assumption.
Defined.

(** C3 as stated fails: a run that succeeds writes ["Procesado"], not
    ["Processed"], returns that status, and may commit an empty
    [filename_url_processed]. *)
Lemma marker_is_Procesado_url_may_be_empty :
  exists res w' row,
    VideoProcessorService.process_video_by_visit_client_id
      Scenario.config Scenario.uploaded_blob_not_seen Scenario.logo_path 1 Scenario.world
    = (inr res, w') /\
    db w' !! 1 = Some row /\
    db_models.file_status row <> Some "Processed" /\
    res_status res <> "Processed" /\
    db_models.filename_url_processed row = Some EmptyString.
Proof.
  eexists _, _, _. split; [vm_compute; reflexivity|].
  split; [vm_compute; reflexivity|].
  repeat split; vm_compute; congruence.
Qed.

(** C4. The derived name is [splitext(name)[0] + "_processed.mp4"].  It
    is the name with what follows the last ['.'] of its final segment
    removed, except when only dots precede that ['.'] in the segment: then
    nothing is removed.  The directory part is kept as it is, and the three
    names of the specification come out as stated. *)
Theorem generate_processed_filename_rule :
  (forall p, _generate_processed_filename p =
               if NamingRule.only_leading_dots p then p +:+ "_processed.mp4"
               else NamingRule.deriveName p) /\
  (forall p, _generate_processed_filename p =
               NamingRule.directory_part p
               +:+ _generate_processed_filename (NamingRule.final_segment p)) /\
  _generate_processed_filename "video.mp4" = "video_processed.mp4" /\
  _generate_processed_filename "my.video.file.mp4" = "my.video.file_processed.mp4" /\
  _generate_processed_filename "path/to/video.mp4" = "path/to/video_processed.mp4".
Proof.
  split; [exact PathFacts.generate_processed_filename_cases|].
  split; [exact generate_keeps_directory|].
  repeat split; reflexivity.
Qed.

(** C4 as stated fails on a name whose final segment starts with its
    only dot: nothing is stripped from [".mp4"]. *)
Lemma leading_dot_name_keeps_extension :
  _generate_processed_filename ".mp4" = ".mp4_processed.mp4" /\
  NamingRule.deriveName ".mp4" = "_processed.mp4" /\
  _generate_processed_filename ".mp4" <> NamingRule.deriveName ".mp4".
Proof.
  split; [reflexivity|]. split; [reflexivity|].
  vm_compute. discriminate.
Qed.

(** C5. With the [Config] class of [settings.py], whatever the process
    environment holds, no run downloads anything: reading
    [BUCKET_FOLDER_VIDEOS] raises before [download_file] is entered, so
    every run fails having made the lookup and no other call. *)
Theorem download_folder_missing_from_settings :
  (forall bucket_name bucket_folder signing_email max_content_length
          (env : Env) (logo_path : string) (visit_client_id : Z) (w : World),
      exists e,
        VideoProcessorService.process_video_by_visit_client_id
          (settings_Config bucket_name bucket_folder signing_email max_content_length)
          env logo_path visit_client_id w
        = (inl e, log (EvQuery visit_client_id) w)) /\
  VideoProcessorService.process_video_by_visit_client_id
    default_Config Scenario.quiet Scenario.logo_path 1 Scenario.world
  = (inl (Exception
            ("Error al procesar video: Error al descargar video desde Cloud Storage: "
             +:+ "'Config' object has no attribute 'BUCKET_FOLDER_VIDEOS'")),
     log (EvQuery 1) Scenario.world).
Proof.
  split; [|vm_compute; reflexivity].
  intros.
  destruct (VideoProcessorService.process_until_content
              (settings_Config bucket_name bucket_folder signing_email max_content_length)
              env visit_client_id w) as [[e|fc] w1] eqn:Hcontent.
  - exists (Exception ("Error al procesar video: " +:+ str e)).
    assert (w1 = log (EvQuery visit_client_id) w) as ->.
    { revert Hcontent.
      unfold VideoProcessorService.process_until_content,
        VideoProcessorService._get_visit_client_by_id, session_query_first,
        VideoProcessorService._download_video_from_storage,
        VideoProcessorService.config_BUCKET_FOLDER_VIDEOS,
        try_except, call, bind, raise.
      cbn. intros H. repeat step_in H.
      all: injection H as _ <-; reflexivity. }
    apply process_fails_early, until_content_fails_early, Hcontent.
  - exfalso. revert Hcontent.
    unfold VideoProcessorService.process_until_content,
      VideoProcessorService._get_visit_client_by_id, session_query_first,
      VideoProcessorService._download_video_from_storage,
      VideoProcessorService.config_BUCKET_FOLDER_VIDEOS,
      try_except, call, bind, raise.
    cbn. intros H. repeat step_in H.
    all: discriminate.
Qed.

(** C6. A record the lookup finds, whose [filename] or [filename_url] is
    empty or [None], makes the run fail with the message of the missing
    video; the only call made is the lookup, so no download was
    attempted and nothing else changed. *)
Theorem record_without_video_is_rejected
    (config : Config) (env : Env) (logo_path : string)
    (visit_client_id : Z) (w : World) (r : Row) :
  raises env (trace w) (EvQuery visit_client_id) = None ->
  session_view w visit_client_id = Some r ->
  truthy (db_models.filename r) = false \/ truthy (db_models.filename_url r) = false ->
  VideoProcessorService.process_video_by_visit_client_id
    config env logo_path visit_client_id w
  = (inl (Exception "Error al procesar video: El registro no tiene un video asociado"),
     log (EvQuery visit_client_id) w).
Proof.
  intros Hquery Hrow Hempty.
  apply (process_fails_early config env logo_path visit_client_id w
           (Exception "El registro no tiene un video asociado")).
  apply until_content_fails_early.
  unfold VideoProcessorService.process_until_content,
    VideoProcessorService._get_visit_client_by_id, session_query_first, call, bind, raise.
  rewrite Hquery. cbn.
  change (session_view (log (EvQuery visit_client_id) w) visit_client_id)
    with (session_view w visit_client_id).
  rewrite Hrow.
  destruct Hempty as [-> | ->]; [reflexivity|].
  rewrite orb_true_r. reflexivity.
Qed.

Lemma empty_filename_run :
  VideoProcessorService.process_video_by_visit_client_id
    Scenario.config Scenario.quiet Scenario.logo_path 2 Scenario.world_without_video
  = (inl (Exception "Error al procesar video: El registro no tiene un video asociado"),
     log (EvQuery 2) Scenario.world_without_video).
Proof.
  apply (record_without_video_is_rejected Scenario.config Scenario.quiet
           Scenario.logo_path 2 Scenario.world_without_video
           Scenario.record_without_video).
  - reflexivity.
  - vm_compute. reflexivity.
  - left. reflexivity.
Defined.

(** C7. When [upload_file] answers with [False] and a message, the run
    fails with that message under the prefixes of the upload step and of
    the run, and every committed row, so every [file_status], is as it was
    before the call. *)
Theorem reported_upload_failure
    (config : Config) (env : Env) (logo_path : string)
    (visit_client_id : Z) (w : World)
    (f v p : string) (w1 : World) (data : bytes) (w2 : World)
    (message : string) (url : option string) (w3 : World) :
  VideoProcessorService.process_until_paths config env logo_path visit_client_id w
    = (inr (f, (v, p)), w1) ->
  open_rb env p w1 = (inr data, w2) ->
  CloudStorageService.upload_file config env
    (mkFileStorage data (_generate_processed_filename f))
    (_generate_processed_filename f) None w2 = (inr (false, message, url), w3) ->
  exists w',
    VideoProcessorService.process_video_by_visit_client_id
      config env logo_path visit_client_id w
    = (inl (Exception ("Error al procesar video: Error al subir video procesado: "
                       +:+ "Error al subir video: " +:+ message)), w') /\
    db w' = db w /\
    (forall k, db_models.file_status <$> (db w' !! k)
               = db_models.file_status <$> (db w !! k)).
Proof.
  intros Hpaths Hopen Hupload.
  assert (Hfrom :
    VideoProcessorService.process_from_paths config env visit_client_id f p w1
    = (inl (Exception ("Error al subir video procesado: "
                       +:+ "Error al subir video: " +:+ message)), w3)).
  { unfold VideoProcessorService.process_from_paths,
      VideoProcessorService._upload_processed_video, try_except, bind.
    rewrite Hopen, Hupload. reflexivity. }
  pose proof (process_continues _ _ _ _ _ _ _ _ _ _ _ Hpaths Hfrom) as Hrun.
  eexists. split; [exact Hrun|].
  apply process_failure_keeps_db in Hrun.
  split; [exact Hrun|]. intros k. rewrite Hrun. reflexivity.
Qed.

Lemma failed_upload_run :
  exists w',
    VideoProcessorService.process_video_by_visit_client_id
      Scenario.config Scenario.upload_fails Scenario.logo_path 1 Scenario.world
    = (inl (Exception ("Error al procesar video: Error al subir video procesado: "
                       +:+ "Error al subir video: "
                       +:+ "Error de Google Cloud Storage: 503 backend unavailable")), w') /\
    db w' = db Scenario.world /\
    (forall k, db_models.file_status <$> (db w' !! k)
               = db_models.file_status <$> (db Scenario.world !! k)).
Proof.
  edestruct (reported_upload_failure Scenario.config Scenario.upload_fails
               Scenario.logo_path 1 Scenario.world) as (w' & Hrun & Hdb & Hstatus).
  - vm_compute. reflexivity.
  - vm_compute. reflexivity.
  - vm_compute. reflexivity.
  - exists w'. split; [exact Hrun|]. split; [exact Hdb|exact Hstatus].
Defined.

(** C8. When the lookup finds no record under the identifier, the run
    fails with the message naming the identifier; the only call made is
    the lookup, and the table, the session and the disk are as before. *)
Theorem unknown_record_is_rejected
    (config : Config) (env : Env) (logo_path : string)
    (visit_client_id : Z) (w : World) :
  raises env (trace w) (EvQuery visit_client_id) = None ->
  session_view w visit_client_id = None ->
  VideoProcessorService.process_video_by_visit_client_id
    config env logo_path visit_client_id w
  = (inl (Exception
            ("Error al procesar video: No se encontró registro de cliente en visita con ID: "
             +:+ NilZero.string_of_int (Z.to_int visit_client_id))),
     log (EvQuery visit_client_id) w).
Proof.
  intros Hquery Hrow.
  match goal with
  | |- _ = (inl (Exception (?pre +:+ ?id)), _) =>
      change (Exception (pre +:+ id))
        with (Exception ("Error al procesar video: "
                +:+ str (Exception
                           ("No se encontró registro de cliente en visita con ID: " +:+ id))))
  end.
  apply process_fails_early. apply until_content_fails_early.
  unfold VideoProcessorService.process_until_content,
    VideoProcessorService._get_visit_client_by_id, session_query_first, call, bind, raise.
  rewrite Hquery. cbn.
  change (session_view (log (EvQuery visit_client_id) w) visit_client_id)
    with (session_view w visit_client_id).
  rewrite Hrow. reflexivity.
Qed.

Lemma missing_record_run :
  VideoProcessorService.process_video_by_visit_client_id
    Scenario.config Scenario.quiet Scenario.logo_path 999 Scenario.world
  = (inl (Exception
            "Error al procesar video: No se encontró registro de cliente en visita con ID: 999"),
     log (EvQuery 999) Scenario.world).
Proof.
  apply (unknown_record_is_rejected Scenario.config Scenario.quiet
           Scenario.logo_path 999 Scenario.world).
  - reflexivity.
  - vm_compute. reflexivity.
Defined.



(** C10. [get_file_url] always returns: the public URL when the bucket,
    the existence check or the signing raises, the empty string when the
    existence check answers [False], the signed URL otherwise.  There is a
    run of [upload_file] that answers [True] with an empty URL, and a run
    of the pipeline that succeeds, commits an empty
    [filename_url_processed] and sets [file_status] to ["Procesado"]. *)
Theorem get_file_url_never_raises :
  (forall (config : Config) (env : Env) (filename : string) (folder : option string)
          (w : World),
      let target_folder := default (BUCKET_FOLDER config) folder in
      let full_path := CloudStorageService.join target_folder filename in
      let public_url :=
        "https://storage.googleapis.com/" +:+ BUCKET_NAME config +:+ "/"
        +:+ target_folder +:+ "/" +:+ filename in
      let h1 := trace w ++ [EvBucket] in
      let h2 := h1 ++ [EvBlobExists full_path] in
      exists w',
        CloudStorageService.get_file_url config env filename folder w
        = (inr match raises env (trace w) EvBucket,
                     raises env h1 (EvBlobExists full_path) with
               | None, None =>
                   if blob_exists env h1 full_path then
                     match raises env h2 (EvSignUrl full_path) with
                     | None => signed_url env h2 full_path
                     | Some _ => public_url
                     end
                   else EmptyString
               | _, _ => public_url
               end, w')) /\
  (exists w',
      CloudStorageService.upload_file Scenario.config Scenario.uploaded_blob_not_seen
        (mkFileStorage [Byte.x03; Byte.x04] "clip_processed.mp4")
        "clip_processed.mp4" None Scenario.world
      = (inr (true, "Archivo subido exitosamente", Some EmptyString), w')) /\
  (exists res w' row,
      VideoProcessorService.process_video_by_visit_client_id
        Scenario.config Scenario.uploaded_blob_not_seen Scenario.logo_path 1 Scenario.world
      = (inr res, w') /\
      res_processed_url res = Some EmptyString /\
      db w' !! 1 = Some row /\
      db_models.filename_url_processed row = Some EmptyString /\
      db_models.file_status row = Some "Procesado").
Proof.
  split; [|split].
  - intros config env filename folder w. cbv zeta.
    unfold CloudStorageService.get_file_url, blob_exists_call,
      blob_generate_signed_url, try_except, call, bind, ret.
    cbn.
    repeat (step_in_goal; cbn).
    all: try match goal with E : negb _ = _ |- _ => cbn in E; discriminate E end.
    all: eexists; reflexivity.
  - eexists. vm_compute. reflexivity.
  - eexists _, _, _. split; [vm_compute; reflexivity|].
    repeat split; vm_compute; reflexivity.
Qed.

(** When signing raises, the URL is the public one. *)
Lemma signing_failure_falls_back :
  fst (CloudStorageService.get_file_url Scenario.config Scenario.signing_fails
         "clip_processed.mp4" None Scenario.world)
  = inr "https://storage.googleapis.com/medisupply-bucket/sales-plan/clip_processed.mp4".
Proof. vm_compute. reflexivity. Qed.

(* ===================================================================== *)
(** ** More on names                                                      *)
(* ===================================================================== *)

Section NameFacts.

Import PosixPath.

Lemma slice_from_cons (a : Ascii.ascii) (s : string) (k : Z) :
  0 <= k -> slice_from (String a s) (1 + k) = slice_from s k.
Proof.
  intros Hk. unfold slice_from.
  replace (Z.to_nat (1 + k)) with (S (Z.to_nat k)) by lia.
  reflexivity.
Qed.

(** What starts at the last occurrence of a character. *)
Lemma rfind_split (c : Ascii.ascii) (s : string) :
  0 <= rfind c s ->
  exists rest, slice_from s (rfind c s) = String c rest /\ rfind c rest = -1.
Proof.
  induction s as [|a s IH]; [cbn; lia|].
  rewrite PathFacts.rfind_cons.
  pose proof (PathFacts.rfind_range c s) as Hr.
  destruct (Z.leb_spec 0 (rfind c s)) as [Hpos|Hneg].
  - intros _. rewrite slice_from_cons by lia. apply IH, Hpos.
  - destruct (Ascii.eqb_spec a c) as [->|Hne]; [|lia].
    intros _. exists s. split; [|lia].
    unfold slice_from. cbn [Z.to_nat]. rewrite Nat.sub_0_r.
    apply PathFacts.substring_all.
Qed.

Lemma append_inv_head (a b c : string) : a +:+ b = a +:+ c -> b = c.
Proof.
  induction a as [|x a IH]; [trivial|].
  rewrite !PathFacts.append_cons. intros [= H]. apply IH, H.
Qed.

Lemma all_extsep_app (a b : string) :
  NamingRule.all_extsep (a +:+ b) = NamingRule.all_extsep a && NamingRule.all_extsep b.
Proof.
  induction a as [|x a IH]; [reflexivity|].
  rewrite PathFacts.append_cons. cbn [NamingRule.all_extsep].
  rewrite IH, andb_assoc. reflexivity.
Qed.

(** [splitext] splits: the two parts make the path again, and the
    extension is empty or a dot followed by neither a dot nor a slash. *)
Lemma splitext_parts (p : string) :
  fst (splitext p) +:+ snd (splitext p) = p /\
  (snd (splitext p) = EmptyString \/
   exists rest, snd (splitext p) = String extsep rest /\
                rfind extsep rest = -1 /\ rfind sep rest = -1).
Proof.
  unfold splitext.
  destruct (_ && _) eqn:Hsplit; cbn [fst snd].
  - apply andb_true_iff in Hsplit as [Hgt _].
    pose proof (PathFacts.rfind_range extsep p) as Hd.
    pose proof (PathFacts.rfind_range sep p) as Hs.
    assert (Hdot : 0 <= rfind extsep p) by lia.
    assert (Hcat : slice_to p (rfind extsep p) +:+ slice_from p (rfind extsep p) = p).
    { unfold slice_to, slice_from. apply PathFacts.substring_split. lia. }
    split; [exact Hcat|]. right.
    destruct (rfind_split extsep p Hdot) as (rest & Hrest & Hnodot).
    exists rest. split; [exact Hrest|]. split; [exact Hnodot|].
    pose proof (PathFacts.rfind_app sep (slice_to p (rfind extsep p))
                  (slice_from p (rfind extsep p))) as Happ.
    rewrite Hcat, Hrest, PathFacts.rfind_cons in Happ.
    unfold slice_to in Happ. rewrite PathFacts.substring_0_length in Happ by lia.
    pose proof (PathFacts.rfind_range sep rest).
    destruct (Z.leb_spec 0 (rfind sep rest)); [|lia].
    destruct (Z.leb_spec 0 (1 + rfind sep rest)); lia.
  - split; [|left; reflexivity].
    clear. induction p as [|a p IH]; [reflexivity|].
    rewrite PathFacts.append_cons, IH. reflexivity.
Qed.

(** The root of a derived name is the root it was derived from, with
    ["_processed"] after it. *)
Lemma splitext_of_suffixed (x : string) :
  fst (splitext (x +:+ "_processed.mp4")) = x +:+ "_processed".
Proof.
  destruct (PathFacts.path_split x) as [Hx Hlen].
  set (dir := NamingRule.directory_part x) in *.
  set (seg := NamingRule.final_segment x) in *.
  assert (Hseg : rfind sep seg = -1) by apply final_segment_has_no_sep.
  assert (Hdir : rfind sep dir = Z.of_nat (String.length dir) - 1).
  { pose proof (PathFacts.rfind_app sep dir seg) as H.
    rewrite <- Hx, Hseg in H. cbn in H. lia. }
  rewrite Hx, PathFacts.append_assoc.
  rewrite PathFacts.splitext_app.
  - cbv zeta. rewrite (PathFacts.rfind_app extsep seg "_processed.mp4").
    change (rfind extsep "_processed.mp4") with 10. cbn [Z.leb Z.compare].
    change (0 <=? 10) with true. cbn match.
    replace (0 <=? Z.of_nat (String.length seg) + 10) with true
      by (symmetry; apply Z.leb_le; lia).
    unfold slice_to.
    rewrite Z2Nat.inj_add, Nat2Z.id by lia.
    rewrite PathFacts.substring_0_app.
    change (String.substring 0 (Z.to_nat 10) "_processed.mp4") with "_processed".
    rewrite all_extsep_app.
    change (NamingRule.all_extsep "_processed") with false.
    rewrite andb_false_r. cbn [negb andb].
    rewrite !PathFacts.append_assoc. reflexivity.
  - rewrite (PathFacts.rfind_app sep dir (seg +:+ "_processed.mp4")).
    rewrite (PathFacts.rfind_app sep seg "_processed.mp4").
    change (rfind sep "_processed.mp4") with (-1). rewrite Hseg. cbn. exact Hdir.
Qed.

End NameFacts.

Section LowerFacts.

Import CloudStorageService.

Lemma lower_char_idempotent (c : Ascii.ascii) : lower_char (lower_char c) = lower_char c.
Proof. destruct c as [[] [] [] [] [] [] [] []]; reflexivity. Qed.

Lemma lower_char_is_dot (c : Ascii.ascii) :
  Ascii.eqb (lower_char c) "."%char = Ascii.eqb c "."%char.
Proof. destruct c as [[] [] [] [] [] [] [] []]; reflexivity. Qed.

Lemma lower_idempotent (s : string) : lower (lower s) = lower s.
Proof.
  induction s as [|c s IH]; [reflexivity|].
  cbn [lower]. rewrite lower_char_idempotent, IH. reflexivity.
Qed.

Lemma rfind_dot_lower (s : string) :
  PosixPath.rfind "."%char (lower s) = PosixPath.rfind "."%char s.
Proof.
  induction s as [|c s IH]; [reflexivity|].
  cbn [lower]. rewrite !PathFacts.rfind_cons, IH, lower_char_is_dot. reflexivity.
Qed.

Lemma length_lower (s : string) : String.length (lower s) = String.length s.
Proof. induction s as [|c s IH]; [reflexivity|]. cbn. rewrite IH. reflexivity. Qed.

Lemma substring_lower (s : string) : forall i n,
  String.substring i n (lower s) = lower (String.substring i n s).
Proof.
  induction s as [|c s IH]; intros i n.
  - destruct i, n; reflexivity.
  - destruct i as [|i].
    + destruct n as [|n]; [reflexivity|]. cbn. rewrite IH. reflexivity.
    + cbn. apply IH.
Qed.

End LowerFacts.

Lemma generate_changes_name (f : string) : _generate_processed_filename f <> f.
Proof.
  destruct (splitext_parts f) as [Hcat Hext].
  unfold _generate_processed_filename. cbv zeta. intros Heq.
  rewrite <- Hcat in Heq at 2. apply append_inv_head in Heq.
  destruct Hext as [Hext | (rest & Hext & _)]; rewrite Hext in Heq; discriminate.
Qed.

(** X1. Whatever the original name, the derived name is a different name,
    and deriving again from a derived name puts the suffix after
    ["_processed"]: the suffixes accumulate. *)
Theorem derived_name_is_new (f : string) :
  _generate_processed_filename f <> f /\
  _generate_processed_filename (_generate_processed_filename f)
  = fst (PosixPath.splitext f) +:+ "_processed" +:+ "_processed.mp4".
Proof.
  split; [apply generate_changes_name|].
  unfold _generate_processed_filename at 1. cbv zeta.
  unfold _generate_processed_filename. cbv zeta.
  rewrite splitext_of_suffixed, PathFacts.append_assoc. reflexivity.
Qed.

(** X2. [os.path.splitext] as the service uses it: root and extension
    make the path again, and the extension is empty or starts with the
    only dot it has and holds no slash. *)
Theorem splitext_root_and_extension (p : string) :
  fst (PosixPath.splitext p) +:+ snd (PosixPath.splitext p) = p /\
  (snd (PosixPath.splitext p) = EmptyString \/
   exists rest, snd (PosixPath.splitext p) = String "."%char rest /\
                PosixPath.rfind "."%char rest = -1 /\
                PosixPath.rfind "/"%char rest = -1).
Proof. exact (splitext_parts p). Qed.

Lemma content_type_of_suffixed (x : string) :
  CloudStorageService.detect_content_type (x +:+ "_processed.mp4") = "video/mp4".
Proof.
  unfold CloudStorageService.detect_content_type.
  cbv zeta.
  rewrite (PathFacts.rfind_app "."%char x "_processed.mp4").
  change (PosixPath.rfind "." "_processed.mp4") with 10.
  change (0 <=? 10) with true. cbv iota.
  replace (0 <=? Z.of_nat (String.length x) + 10) with true
    by (symmetry; apply Z.leb_le; lia).
  unfold PosixPath.slice_from.
  rewrite PathFacts.length_append.
  replace (Z.to_nat (Z.of_nat (String.length x) + 10 + 1))
    with (String.length x + 11)%nat by lia.
  rewrite PathFacts.substring_app_skip.
  replace (String.length x + String.length "_processed.mp4" - (String.length x + 11))%nat
    with 3%nat by (cbn [String.length]; lia).
  reflexivity.
Qed.

(** X3. The name the pipeline uploads under is always detected as
    ["video/mp4"], whatever the record's file name, also one without an
    extension or with another one. *)
Theorem processed_name_is_video_mp4 (f : string) :
  CloudStorageService.detect_content_type (_generate_processed_filename f) = "video/mp4".
Proof. unfold _generate_processed_filename. apply content_type_of_suffixed. Qed.

(** X4. The content type [upload_file] detects does not depend on the
    letter case of the file name. *)
Theorem content_type_ignores_case (name : string) :
  CloudStorageService.detect_content_type (CloudStorageService.lower name)
  = CloudStorageService.detect_content_type name.
Proof.
  unfold CloudStorageService.detect_content_type. cbv zeta.
  rewrite rfind_dot_lower.
  destruct (0 <=? PosixPath.rfind "." name); [|reflexivity].
  unfold PosixPath.slice_from.
  rewrite length_lower, substring_lower, lower_idempotent. reflexivity.
Qed.

(* ===================================================================== *)
(** ** What each step calls                                               *)
(* ===================================================================== *)

#[local] Instance emits_preorder (P : Event -> Prop) : PreOrder (emits P).
Proof.
  split.
  - intros w. exists []. split; [symmetry; apply app_nil_r|constructor].
  - intros w1 w2 w3 (t1 & E1 & H1) (t2 & E2 & H2). exists (t1 ++ t2).
    split; [rewrite E2, E1, app_assoc; reflexivity|].
    apply Forall_app; split; assumption.
Qed.

Lemma emits_weaken (P Q : Event -> Prop) (w w' : World) :
  (forall ev, P ev -> Q ev) -> emits P w w' -> emits Q w w'.
Proof.
  intros HPQ (t & E & H). exists t. split; [exact E|].
  eapply Forall_impl; eassumption.
Qed.

Lemma keeps_emits_weaken {A} (P Q : Event -> Prop) (m : M A) :
  (forall ev, P ev -> Q ev) -> keeps (emits P) m -> keeps (emits Q) m.
Proof. intros HPQ H w. eapply emits_weaken; [exact HPQ|apply H]. Qed.

Section CallFrames.

Variable env : Env.
Variable P : Event -> Prop.

Lemma emits_log ev w : P ev -> emits P w (log ev w).
Proof. intros H. exists [ev]. split; [reflexivity|]. repeat constructor. exact H. Qed.

Lemma emits_same_trace w w' : trace w' = trace w -> emits P w w'.
Proof. intros H. exists []. split; [rewrite H, app_nil_r; reflexivity|constructor]. Qed.

Lemma emits_call ev : P ev -> keeps (emits P) (call env ev).
Proof.
  intros H w. unfold call. destruct (raises env (trace w) ev); apply emits_log, H.
Qed.

(** A call followed by a step that records nothing. *)
Lemma emits_call_then {A} ev (k : World -> World -> (Exn + A) * World) :
  P ev -> (forall w0 w, trace (snd (k w0 w)) = trace w) ->
  keeps (emits P) (fun w => bind (call env ev) (fun _ => k w) w).
Proof.
  intros H Hk w. unfold bind, call.
  destruct (raises env (trace w) ev); cbn; [apply emits_log, H|].
  etrans; [apply emits_log, H|]. apply emits_same_trace, Hk.
Qed.

Lemma emits_session_query_first k :
  P (EvQuery k) -> keeps (emits P) (session_query_first env k).
Proof. intros H. apply (emits_call_then _ (fun _ w => (inr (session_view w k), w)) H). reflexivity. Qed.

Lemma emits_session_set k r : keeps (emits P) (session_set k r).
Proof. intros w. apply emits_same_trace. reflexivity. Qed.

Lemma emits_session_commit : P EvCommit -> keeps (emits P) (session_commit env).
Proof.
  intros H.
  apply (emits_call_then _ (fun _ w => (inr tt, set_session ∅ (set_db (session w ∪ db w) w))) H).
  reflexivity.
Qed.

Lemma emits_session_rollback : P EvRollback -> keeps (emits P) (session_rollback env).
Proof.
  intros H. apply (emits_call_then _ (fun _ w => (inr tt, set_session ∅ w)) H).
  reflexivity.
Qed.

Lemma emits_blob_exists_call p :
  P (EvBlobExists p) -> keeps (emits P) (blob_exists_call env p).
Proof.
  intros H.
  apply (emits_call_then _ (fun w0 w => (inr (blob_exists env (trace w0) p), w)) H).
  reflexivity.
Qed.

Lemma emits_blob_download_to_file p :
  P (EvBlobDownload p) -> keeps (emits P) (blob_download_to_file env p).
Proof.
  intros H.
  apply (emits_call_then _ (fun w0 w => (inr (blob_content env (trace w0) p), w)) H).
  reflexivity.
Qed.

Lemma emits_blob_generate_signed_url p :
  P (EvSignUrl p) -> keeps (emits P) (blob_generate_signed_url env p).
Proof.
  intros H.
  apply (emits_call_then _ (fun w0 w => (inr (signed_url env (trace w0) p), w)) H).
  reflexivity.
Qed.

Lemma emits_NamedTemporaryFile sfx :
  P (EvNamedTemporaryFile sfx) -> keeps (emits P) (NamedTemporaryFile env sfx).
Proof.
  intros H.
  apply (emits_call_then _
           (fun w0 w => (inr (temp_name env (trace w0) +:+ sfx),
                         set_disk (<[temp_name env (trace w0) +:+ sfx := []]> (disk w)) w)) H).
  reflexivity.
Qed.

Lemma emits_file_write p d : P (EvWrite p) -> keeps (emits P) (file_write env p d).
Proof.
  intros H.
  apply (emits_call_then _ (fun _ w => (inr tt, set_disk (<[p := d]> (disk w)) w)) H).
  reflexivity.
Qed.

Lemma emits_write_videofile p :
  P (EvWriteVideofile p) -> keeps (emits P) (write_videofile env p).
Proof.
  intros H.
  apply (emits_call_then _
           (fun w0 w => (inr tt, set_disk (<[p := encoded_video env (trace w0) p]> (disk w)) w)) H).
  reflexivity.
Qed.

Lemma emits_os_path_exists p : keeps (emits P) (os_path_exists p).
Proof. intros w. apply emits_same_trace. reflexivity. Qed.

Lemma emits_open_rb p : P (EvOpen p) -> keeps (emits P) (open_rb env p).
Proof.
  intros H.
  apply (emits_call_then _
           (fun _ w => match disk w !! p with
                       | Some data => (inr data, w)
                       | None => (inl (Exception ("[Errno 2] No such file or directory: '"
                                                  +:+ p +:+ "'")), w)
                       end) H).
  intros _ w. destruct (disk w !! p); reflexivity.
Qed.

Lemma emits_os_remove p : P (EvRemove p) -> keeps (emits P) (os_remove env p).
Proof.
  intros H.
  apply (emits_call_then _ (fun _ w => (inr tt, set_disk (delete p (disk w)) w)) H).
  reflexivity.
Qed.

End CallFrames.

(** Decompose a computation along its binds, handlers and branches down
    to the calls, leaving what has to hold of each call. *)
Ltac calls :=
  repeat first
    [ progress intros
    | progress cbv zeta
    | apply keeps_ret; typeclasses eauto
    | apply keeps_raise; typeclasses eauto
    | apply emits_session_set
    | apply emits_os_path_exists
    | apply emits_call
    | apply emits_session_query_first
    | apply emits_session_commit
    | apply emits_session_rollback
    | apply emits_blob_exists_call
    | apply emits_blob_download_to_file
    | apply emits_blob_generate_signed_url
    | apply emits_NamedTemporaryFile
    | apply emits_file_write
    | apply emits_write_videofile
    | apply emits_open_rb
    | apply emits_os_remove
    | apply keeps_bind; [typeclasses eauto| |]
    | apply keeps_try_except; [typeclasses eauto| |]
    | match goal with
      | |- keeps _ (match ?x with _ => _ end) => destruct x
      end ].

Section CloudStorageFacts.

Variable config : Config.
Variable env : Env.

Lemma emits_get_file_url f d :
  keeps (emits (fun ev => ~ is_blob_upload ev))
        (CloudStorageService.get_file_url config env f d).
Proof.
  unfold CloudStorageService.get_file_url. calls.
  all: intros (? & ? & ? & ?); discriminate.
Qed.

Lemma GoogleCloudError_class e :
  is_GoogleCloudError e = true <-> exn_class e = GoogleCloudErrorClass.
Proof. unfold is_GoogleCloudError. destruct (exn_class e); split; congruence. Qed.

End CloudStorageFacts.

(** X5. Whatever goes wrong in [download_file], what the caller sees is
    a [GoogleCloudError]; and the call has changed neither the table, nor
    the session, nor the disk. *)
Theorem download_file_raises_GoogleCloudError (env : Env) (filename : string)
    (folder : option string) (w : World) (e : Exn) (w' : World) :
  CloudStorageService.download_file env filename folder w = (inl e, w') ->
  exn_class e = GoogleCloudErrorClass /\ only_traced w w'.
Proof.
  intros H. split.
  - revert H. unfold CloudStorageService.download_file, try_except.
    destruct (bind _ _ w) as [[e0|c] w0]; [|discriminate].
    destruct (is_GoogleCloudError e0) eqn:Hclass; unfold raise; intros [= <- <-].
    + apply GoogleCloudError_class, Hclass.
    + reflexivity.
  - pose proof (keeps_download_file env filename folder w) as Hk.
    rewrite H in Hk. exact Hk.
Qed.

Lemma download_of_unknown_blob :
  exists e w',
    CloudStorageService.download_file Scenario.uploaded_blob_not_seen "clip.mp4"
      (Some "elsewhere") Scenario.world = (inl e, w') /\
    exn_class e = GoogleCloudErrorClass /\ only_traced Scenario.world w'.
Proof.
  assert (Hrun : exists e w',
             CloudStorageService.download_file Scenario.uploaded_blob_not_seen "clip.mp4"
               (Some "elsewhere") Scenario.world = (inl e, w'))
    by (eexists _, _; vm_compute; reflexivity).
  destruct Hrun as (e & w' & Hrun). exists e, w'. split; [exact Hrun|].
  exact (download_file_raises_GoogleCloudError _ _ _ _ _ _ Hrun).
Defined.

(** X6. When the bucket answers that the blob is not there,
    [download_file] raises the [GoogleCloudError] that names the path,
    unchanged by the handlers, and the blob was asked for but never
    downloaded.  The path is [folder/filename], or the bare file name
    when the folder is [None] or empty. *)
Theorem download_file_missing_blob (env : Env) (filename : string)
    (folder : option string) (w : World) :
  let full_path := CloudStorageFiles.full_path_of filename folder in
  raises env (trace w) EvBucket = None ->
  raises env (trace w ++ [EvBucket]) (EvBlobExists full_path) = None ->
  blob_exists env (trace w ++ [EvBucket]) full_path = false ->
  CloudStorageService.download_file env filename folder w
  = (inl (GoogleCloudError env ("El archivo " +:+ full_path +:+ " no existe en el bucket")),
     log (EvBlobExists full_path) (log EvBucket w)).
Proof.
  intros full_path Hb He Hx.
  unfold CloudStorageService.download_file, try_except, blob_exists_call, bind, call,
    raise, ret.
  fold (CloudStorageFiles.full_path_of filename folder). fold full_path.
  rewrite Hb. cbn [log trace]. rewrite He, Hx. cbn [negb].
  unfold GoogleCloudError, is_GoogleCloudError. cbn [exn_class]. reflexivity.
Qed.

Lemma download_with_empty_folder :
  CloudStorageService.download_file Scenario.uploaded_blob_not_seen "clip.mp4"
    (Some "") Scenario.world
  = (inl (GoogleCloudError Scenario.uploaded_blob_not_seen
            "El archivo clip.mp4 no existe en el bucket"),
     log (EvBlobExists "clip.mp4") (log EvBucket Scenario.world)).
Proof.
  apply (download_file_missing_blob Scenario.uploaded_blob_not_seen "clip.mp4"
           (Some "") Scenario.world); reflexivity.
Defined.

(** X7. [file_exists] never raises and changes nothing; it answers
    [True] exactly when the bucket could be reached, the existence check
    returned, and its answer was [True]. *)
Theorem file_exists_never_raises (env : Env) (filename : string)
    (folder : option string) (w : World) :
  exists present w',
    CloudStorageFiles.file_exists env filename folder w = (inr present, w') /\
    only_traced w w' /\
    let full_path := CloudStorageFiles.full_path_of filename folder in
    (present = true <->
       raises env (trace w) EvBucket = None /\
       raises env (trace w ++ [EvBucket]) (EvBlobExists full_path) = None /\
       blob_exists env (trace w ++ [EvBucket]) full_path = true).
Proof.
  unfold CloudStorageFiles.file_exists, try_except, blob_exists_call, bind, call, ret.
  cbv zeta. set (full_path := CloudStorageFiles.full_path_of filename folder).
  destruct (raises env (trace w) EvBucket) as [e|] eqn:Hb.
  { eexists _, _. split; [reflexivity|]. split; [repeat split|].
    split; [discriminate|]. intros [[=] _]. }
  cbn [log trace].
  destruct (raises env (trace w ++ [EvBucket]) (EvBlobExists full_path)) as [e|] eqn:He.
  { eexists _, _. split; [reflexivity|]. split; [repeat split|].
    split; [discriminate|]. intros (_ & [=] & _). }
  eexists _, _. split; [reflexivity|]. split; [repeat split|].
  split; [intros ->; repeat split|intros (_ & _ & ->); reflexivity].
Qed.

(** X8. [upload_file] never raises: it returns a triple whose URL is
    present exactly when the flag is [True], in which case the message is
    the success message; and it changes neither the table, nor the
    session, nor the disk. *)
Theorem upload_file_never_raises (config : Config) (env : Env) (file : FileStorage)
    (filename : string) (folder : option string) (w : World) :
  exists success message url w',
    CloudStorageService.upload_file config env file filename folder w
    = (inr (success, message, url), w') /\
    (success = true <-> is_Some url) /\
    (success = true -> message = "Archivo subido exitosamente") /\
    only_traced w w'.
Proof.
  pose proof (keeps_upload_file config env file filename folder w) as Hk.
  revert Hk.
  unfold CloudStorageService.upload_file, try_except.
  destruct (String.eqb (fs_filename file) EmptyString).
  { intros Hk. eexists _, _, _, _. split; [reflexivity|].
    split; [split; [discriminate|intros [? [=]]]|]. split; [discriminate|exact Hk]. }
  cbv zeta. destruct (_ >? _).
  { intros Hk. eexists _, _, _, _. split; [reflexivity|].
    split; [split; [discriminate|intros [? [=]]]|]. split; [discriminate|exact Hk]. }
  destruct (bind _ _ w) as [[e|[[s m] u]] w1] eqn:Erun.
  - destruct (is_GoogleCloudError e); intros Hk; eexists _, _, _, _;
      (split; [reflexivity|]);
      (split; [split; [discriminate|intros [? [=]]]|]); (split; [discriminate|exact Hk]).
  - intros Hk. exists s, m, u, w1. split; [reflexivity|].
    revert Erun. unfold bind, ret.
    destruct (call env EvBucket w) as [[?|?] ?]; [discriminate|].
    destruct (blob_upload_from_file _ _ _ _ _) as [[?|?] ?]; [discriminate|].
    destruct (CloudStorageService.get_file_url _ _ _ _ _) as [[?|?] ?]; [discriminate|].
    intros [= <- <- <- <-]. split; [split; [eauto|reflexivity]|]. split; [reflexivity|exact Hk].
Qed.

Lemma length_positive_diff {A} (l : list A) (x : A) : l ++ [x] <> l.
Proof.
  intros H. apply (f_equal length) in H. rewrite length_app in H. cbn in H. lia.
Qed.

(** X9. The size check of [upload_file]: a named file larger than
    [MAX_CONTENT_LENGTH] is refused with the limit in whole megabytes and
    without any call to the store; a file of exactly the limit, or
    smaller, goes on to the bucket. *)
Theorem upload_file_size_limit (config : Config) (env : Env) (file : FileStorage)
    (filename : string) (folder : option string) (w : World) :
  fs_filename file <> EmptyString ->
  if Z.of_nat (length (stream file)) >? MAX_CONTENT_LENGTH config then
    CloudStorageService.upload_file config env file filename folder w
    = (inr (false,
            "El archivo excede el tamaño máximo permitido de "
            +:+ NilZero.string_of_int
                  (Z.to_int (MAX_CONTENT_LENGTH config / (1024 * 1024)))
            +:+ " MB",
            None), w)
  else
    exists t, trace (snd (CloudStorageService.upload_file config env file filename folder w))
              = trace w ++ EvBucket :: t.
Proof.
  intros Hname. apply String.eqb_neq in Hname.
  unfold CloudStorageService.upload_file, try_except. rewrite Hname. cbv zeta.
  destruct (_ >? _); [reflexivity|].
  unfold bind at 1. unfold call at 1.
  destruct (raises env (trace w) EvBucket) as [e|].
  - destruct (is_GoogleCloudError e); exists []; reflexivity.
  - match goal with
    | |- context [bind ?m ?k (log EvBucket w)] =>
        pose proof (fun P (H : keeps (emits P) (bind m k)) => H (log EvBucket w)) as Hk;
        destruct (bind m k (log EvBucket w)) as [[e|r] w1]
    end.
    + specialize (Hk (fun _ => True)). cbn [snd] in Hk.
      destruct Hk as (t & Ht & _).
      { calls; exact I. }
      destruct (is_GoogleCloudError e); exists t; cbn [snd ret];
        rewrite Ht; cbn [log trace]; rewrite <- app_assoc; reflexivity.
    + specialize (Hk (fun _ => True)). cbn [snd] in Hk.
      destruct Hk as (t & Ht & _).
      { calls; exact I. }
      exists t. cbn [snd]. rewrite Ht. cbn [log trace]. rewrite <- app_assoc. reflexivity.
Qed.

Lemma three_bytes_over_a_limit_of_two :
  CloudStorageService.upload_file two_byte_limit Scenario.quiet
    (mkFileStorage [Byte.x00; Byte.x01; Byte.x02] "clip.mp4") "clip.mp4" None Scenario.world
  = (inr (false, "El archivo excede el tamaño máximo permitido de 0 MB", None),
     Scenario.world) /\
  exists t,
    trace (snd (CloudStorageService.upload_file two_byte_limit Scenario.quiet
                  (mkFileStorage [Byte.x00; Byte.x01] "clip.mp4") "clip.mp4" None
                  Scenario.world))
    = trace Scenario.world ++ EvBucket :: t.
Proof.
  split.
  - apply (upload_file_size_limit two_byte_limit Scenario.quiet
             (mkFileStorage [Byte.x00; Byte.x01; Byte.x02] "clip.mp4")). discriminate.
  - apply (upload_file_size_limit two_byte_limit Scenario.quiet
             (mkFileStorage [Byte.x00; Byte.x01] "clip.mp4")). discriminate.
Defined.

(** X10. A call of [upload_file] that reports success has uploaded
    once: the bytes of the file, under [target_folder/filename] where the
    target folder is [BUCKET_FOLDER] when no folder is given, with the
    content type detected from the name of the file; that call returned,
    and no other upload followed. *)
Theorem upload_file_uploads_once (config : Config) (env : Env) (file : FileStorage)
    (filename : string) (folder : option string) (w : World)
    (message : string) (url : option string) (w' : World) :
  CloudStorageService.upload_file config env file filename folder w
  = (inr (true, message, url), w') ->
  let full_path :=
    CloudStorageService.join (default (BUCKET_FOLDER config) folder) filename in
  let upload :=
    EvBlobUpload full_path (CloudStorageService.detect_content_type (fs_filename file))
      (stream file) in
  raises env (trace w ++ [EvBucket]) upload = None /\
  exists t, trace w' = trace w ++ EvBucket :: upload :: t /\
            Forall (fun ev => ~ is_blob_upload ev) t.
Proof.
  cbv zeta.
  unfold CloudStorageService.upload_file, try_except.
  destruct (String.eqb (fs_filename file) EmptyString); [discriminate|].
  cbv zeta. destruct (_ >? _); [discriminate|].
  unfold bind at 1. unfold call at 1.
  destruct (raises env (trace w) EvBucket) as [e|].
  { destruct (is_GoogleCloudError e); discriminate. }
  unfold bind at 1. unfold blob_upload_from_file, call at 1. cbn [log trace].
  destruct (raises env (trace w ++ [EvBucket]) _) as [e|] eqn:Hup.
  { destruct (is_GoogleCloudError e); discriminate. }
  unfold bind, ret.
  match goal with
  | |- context [CloudStorageService.get_file_url ?c ?e ?f ?d ?w0] =>
      pose proof (emits_get_file_url c e f d w0) as (t & Ht & Hall);
      destruct (CloudStorageService.get_file_url c e f d w0) as [[e1|u] w1]
  end.
  { destruct (is_GoogleCloudError e1); discriminate. }
  intros [= <- <- <-]. split; [reflexivity|].
  exists t. split; [|exact Hall].
  cbn [snd log trace] in Ht. rewrite Ht, <- !app_assoc. reflexivity.
Qed.

Lemma upload_with_empty_folder :
  exists t,
    trace (snd (CloudStorageService.upload_file Scenario.config Scenario.quiet
                  (mkFileStorage [Byte.x03] "Clip.MP4") "clip.mp4" (Some "")
                  Scenario.world))
    = [EvBucket; EvBlobUpload "/clip.mp4" "video/mp4" [Byte.x03]] ++ t.
Proof.
  assert (Hrun : exists message url w',
             CloudStorageService.upload_file Scenario.config Scenario.quiet
               (mkFileStorage [Byte.x03] "Clip.MP4") "clip.mp4" (Some "") Scenario.world
             = (inr (true, message, url), w'))
    by (eexists _, _, _; vm_compute; reflexivity).
  destruct Hrun as (message & url & w' & Hrun).
  destruct (upload_file_uploads_once _ _ _ _ _ _ _ _ _ Hrun) as (_ & t & Ht & _).
  exists t. rewrite Hrun. exact Ht.
Defined.

(** X11. [delete_file] never raises.  It answers [True] exactly when it
    called [blob.delete()] and that call returned; it calls
    [blob.delete()] at most once, for [folder/filename] (the bare name
    for an empty folder), and only after the bucket answered that the
    blob exists; the rest of the world is as [file_exists] leaves it. *)
Theorem delete_file_never_raises (env : Env)
    (delete_raises : list Event -> list (string * bool) -> string -> option Exn)
    (filename : string) (folder : option string) (sw : StoreWorld) :
  let full_path := CloudStorageFiles.full_path_of filename folder in
  exists deleted sw',
    CloudStorageFiles.delete_file env delete_raises filename folder sw
    = (inr deleted, sw') /\
    (deleted = true <-> delete_calls sw' = delete_calls sw ++ [(full_path, true)]) /\
    (deleted = false ->
       delete_calls sw' = delete_calls sw \/
       delete_calls sw' = delete_calls sw ++ [(full_path, false)]) /\
    (delete_calls sw' <> delete_calls sw ->
       blob_exists env (trace (base sw) ++ [EvBucket]) full_path = true) /\
    only_traced (base sw) (base sw').
Proof.
  cbv zeta. set (full_path := CloudStorageFiles.full_path_of filename folder).
  assert (Hno : forall c : string * bool, delete_calls sw <> delete_calls sw ++ [c]).
  { intros c H. symmetry in H. revert H. apply length_positive_diff. }
  unfold CloudStorageFiles.delete_file, try_exceptS, bindS, lift, retS,
    CloudStorageFiles.blob_delete, blob_exists_call, bind, call, ret.
  cbv zeta. fold full_path.
  destruct (raises env (trace (base sw)) EvBucket) as [e|].
  { cbn. destruct (is_GoogleCloudError e); eexists _, _; (split; [reflexivity|]); cbn;
      repeat split; try discriminate; try (intros H; exfalso; revert H; apply Hno);
      try (left; reflexivity); try (intros H; exfalso; apply H; reflexivity). }
  cbn [log trace base delete_calls].
  destruct (raises env (trace (base sw) ++ [EvBucket]) (EvBlobExists full_path)) as [e|].
  { cbn. destruct (is_GoogleCloudError e); eexists _, _; (split; [reflexivity|]); cbn;
      repeat split; try discriminate; try (intros H; exfalso; revert H; apply Hno);
      try (left; reflexivity); try (intros H; exfalso; apply H; reflexivity). }
  cbn [log trace base delete_calls].
  destruct (blob_exists env (trace (base sw) ++ [EvBucket]) full_path) eqn:Hx.
  2:{ eexists _, _; (split; [reflexivity|]); cbn;
      repeat split; try discriminate; try (intros H; exfalso; revert H; apply Hno);
      try (left; reflexivity); try (intros H; exfalso; apply H; reflexivity). }
  cbn [log trace base delete_calls].
  destruct (delete_raises _ _ _) as [e|].
  - cbn. destruct (is_GoogleCloudError e); eexists _, _; (split; [reflexivity|]); cbn;
      repeat split; try discriminate; try (right; reflexivity);
      intros H; apply app_inv_head in H; discriminate.
  - eexists _, _; (split; [reflexivity|]); cbn; repeat split; discriminate.
Qed.

(* ===================================================================== *)
(** ** More on the steps of a run                                         *)
(* ===================================================================== *)

#[local] Instance file_untouched_preorder (q : string) : PreOrder (file_untouched q).
Proof.
  split.
  - intros w. reflexivity.
  - intros w1 w2 w3. unfold file_untouched. congruence.
Qed.

Lemma disk_untouched_file (q : string) (w w' : World) :
  disk_untouched w w' -> file_untouched q w w'.
Proof. unfold disk_untouched, file_untouched. intros ->. reflexivity. Qed.

Section StepFacts.

Variable config : Config.
Variable env : Env.
Variable logo_path : string.

Local Abbreviation process := (VideoProcessorService.process_video_by_visit_client_id config env logo_path).
Local Abbreviation process_until_content := (VideoProcessorService.process_until_content config env).
Local Abbreviation process_until_paths := (VideoProcessorService.process_until_paths config env logo_path).
Local Abbreviation process_from_paths := (VideoProcessorService.process_from_paths config env).

(** The two ways through [process_video_by_visit_client_id]. *)
Lemma process_cases id w :
  (exists e w1,
      process_until_paths id w = (inl e, w1) /\
      process id w = (inl (Exception ("Error al procesar video: " +:+ str e)), w1)) \/
  (exists f v p w1 o w2,
      process_until_paths id w = (inr (f, (v, p)), w1) /\
      process_from_paths id f p w1 = (o, w2) /\
      process id w =
        (VideoProcessorService.reraise_wrapped o,
         snd (VideoProcessorService._cleanup_temp_files env [Some v; Some p] w2))).
Proof.
  destruct (process_until_paths id w) as [[e|[f [v p]]] w1] eqn:E1.
  - left. exists e, w1. split; [reflexivity|]. apply process_fails_early, E1.
  - right. destruct (process_from_paths id f p w1) as [o w2] eqn:E2.
    exists f, v, p, w1, o, w2. split; [reflexivity|]. split; [exact E2|].
    eapply process_continues; eassumption.
Qed.

(** *** The composition step and the disk *)

Lemma composition_paths c f w0 v p w1 :
  VideoProcessorService._process_video_with_logo env logo_path c f w0
    = (inr (v, p), w1) ->
  (exists h, v = temp_name env h +:+ ".mp4") /\
  (exists h, p = temp_name env h +:+ "_processed.mp4").
Proof.
  unfold VideoProcessorService._process_video_with_logo, NamedTemporaryFile,
    file_write, write_videofile, os_path_exists, try_except, call, bind, raise, ret.
  cbn. intros H.
  repeat step_in H.
  all: try discriminate.
  injection H as <- <- _. split; eexists; reflexivity.
Qed.

Lemma composition_file_untouched c f q :
  (forall h, q <> temp_name env h +:+ ".mp4") ->
  (forall h, q <> temp_name env h +:+ "_processed.mp4") ->
  keeps (file_untouched q)
        (VideoProcessorService._process_video_with_logo env logo_path c f).
Proof.
  intros Hv Hp w. unfold file_untouched.
  destruct (VideoProcessorService._process_video_with_logo env logo_path c f w)
    as [o w1] eqn:H. cbn [snd]. revert H.
  unfold VideoProcessorService._process_video_with_logo, NamedTemporaryFile,
    file_write, write_videofile, os_path_exists, try_except, call, bind, raise, ret.
  cbn. intros H.
  repeat step_in H.
  all: injection H as <- <-; cbn.
  all: rewrite ?lookup_insert_ne by (apply not_eq_sym; first [apply Hv|apply Hp]).
  all: reflexivity.
Qed.

(** *** The cleanup and the disk *)

Lemma cleanup_file_untouched fp q :
  fp <> Some q -> keeps (file_untouched q) (VideoProcessorService.cleanup_file env fp).
Proof.
  intros Hne w. unfold file_untouched, VideoProcessorService.cleanup_file.
  destruct (truthy fp) eqn:Htruthy; [|reflexivity].
  destruct fp as [p|]; [|discriminate]. cbn [default from_option id].
  unfold os_path_exists, os_remove, try_except, call, bind, ret. cbn.
  destruct (bool_decide _); [|reflexivity].
  destruct (raises env (trace w) (EvRemove p)); cbn; [reflexivity|].
  apply lookup_delete_ne. congruence.
Qed.

Lemma cleanup_files_untouched paths q :
  Some q ∉ paths ->
  keeps (file_untouched q) (VideoProcessorService._cleanup_temp_files env paths).
Proof.
  induction paths as [|fp paths IH]; intros Hnot;
    cbn [VideoProcessorService._cleanup_temp_files].
  - apply keeps_ret. typeclasses eauto.
  - apply not_elem_of_cons in Hnot as [Hne Hnot].
    apply keeps_bind; [typeclasses eauto| |intros _; apply IH, Hnot].
    apply cleanup_file_untouched. congruence.
Qed.

Lemma update_disk_untouched id pf url :
  keeps disk_untouched (VideoProcessorService._update_visit_client_record env id pf url).
Proof.
  intros w. unfold disk_untouched.
  destruct (VideoProcessorService._update_visit_client_record env id pf url w)
    as [[e|[]] w'] eqn:H; cbn [snd].
  - apply update_failure in H as (_ & Hd & _). exact Hd.
  - apply update_success in H as (_ & _ & _ & _ & Hd). exact Hd.
Qed.

Lemma from_paths_disk_untouched id f p :
  keeps disk_untouched (process_from_paths id f p).
Proof.
  unfold VideoProcessorService.process_from_paths. cbv zeta.
  apply keeps_bind; [typeclasses eauto| |intros url].
  - apply only_traced_disk, keeps_upload_processed_video.
  - apply keeps_bind; [typeclasses eauto| |intros _; apply keeps_ret; typeclasses eauto].
    apply update_disk_untouched.
Qed.

End StepFacts.

Ltac not_that_call :=
  repeat match goal with
         | |- _ /\ _ => split
         | |- ~ is_blob_upload _ => intros (? & ? & ? & ?); discriminate
         | |- ~ is_persist _ => intros [?|?]; discriminate
         | |- forall _, _ => intro
         | H : _ = EvBlobUpload _ _ _ |- _ => discriminate H
         end.

Section CallFacts.

Variable config : Config.
Variable env : Env.
Variable logo_path : string.

Lemma emits_cleanup_temp_files paths :
  keeps (emits is_EvRemove) (VideoProcessorService._cleanup_temp_files env paths).
Proof.
  intros w.
  destruct (cleanup_temp_files_spec env paths w) as (w' & E & _ & _ & Ht).
  rewrite E. exact Ht.
Qed.

Lemma emits_process_until_paths id :
  keeps (emits (fun ev => ~ is_blob_upload ev /\ ~ is_persist ev))
        (VideoProcessorService.process_until_paths config env logo_path id).
Proof.
  unfold VideoProcessorService.process_until_paths,
    VideoProcessorService.process_until_content,
    VideoProcessorService._get_visit_client_by_id,
    VideoProcessorService._download_video_from_storage,
    VideoProcessorService.config_BUCKET_FOLDER_VIDEOS,
    VideoProcessorService._process_video_with_logo.
  calls; not_that_call.
Qed.

Lemma emits_update_visit_client_record id pf url :
  keeps (emits (fun ev => ~ is_blob_upload ev))
        (VideoProcessorService._update_visit_client_record env id pf url).
Proof.
  unfold VideoProcessorService._update_visit_client_record,
    VideoProcessorService._get_visit_client_by_id.
  calls; not_that_call.
  intros w. apply emits_same_trace. reflexivity.
Qed.

Lemma emits_upload_processed_video p f :
  keeps (emits (fun ev =>
                  ~ is_persist ev /\
                  forall path content_type data,
                    ev = EvBlobUpload path content_type data ->
                    content_type = "video/mp4" /\
                    path = CloudStorageService.join (BUCKET_FOLDER config)
                             (_generate_processed_filename f)))
        (VideoProcessorService._upload_processed_video config env p
           (_generate_processed_filename f)).
Proof.
  unfold VideoProcessorService._upload_processed_video,
    CloudStorageService.upload_file, CloudStorageService.get_file_url,
    blob_upload_from_file.
  calls; not_that_call.
  all: match goal with H : EvBlobUpload _ _ _ = EvBlobUpload _ _ _ |- _ =>
         injection H as <- <- <- end.
  - apply content_type_of_suffixed.
  - reflexivity.
Qed.

End CallFacts.

(** X12. [_cleanup_temp_files] returns, and a file that is not among
    the listed paths is on disk afterwards exactly as it was before;
    the table and the session are not touched either. *)
Theorem cleanup_keeps_unlisted_files (env : Env) (paths : list (option string))
    (q : string) (w : World) :
  Some q ∉ paths ->
  exists w', VideoProcessorService._cleanup_temp_files env paths w = (inr tt, w') /\
             disk w' !! q = disk w !! q /\ store_untouched w w'.
Proof.
  intros Hq.
  destruct (cleanup_temp_files_spec env paths w) as (w' & E & _).
  exists w'. split; [exact E|].
  pose proof (cleanup_files_untouched env paths q Hq w) as Hfile.
  pose proof (keeps_cleanup_temp_files env paths w) as Hstore.
  rewrite E in Hfile, Hstore. split; [exact Hfile|exact Hstore].
Qed.

Lemma cleanup_next_to_the_logo :
  exists w',
    VideoProcessorService._cleanup_temp_files Scenario.quiet
      [Some Scenario.logo_path; None]
      (set_disk (<["/tmp/keep.mp4" := [Byte.x01]]> (disk Scenario.world)) Scenario.world)
    = (inr tt, w') /\
    disk w' !! "/tmp/keep.mp4" = Some [Byte.x01] /\
    disk w' !! Scenario.logo_path = None.
Proof.
  edestruct (cleanup_keeps_unlisted_files Scenario.quiet [Some Scenario.logo_path; None]
               "/tmp/keep.mp4"
               (set_disk (<["/tmp/keep.mp4" := [Byte.x01]]> (disk Scenario.world))
                  Scenario.world))
    as (w' & Hrun & Hkeep & _).
  { intros H. apply elem_of_cons in H as [H|H]; [discriminate|].
    apply elem_of_cons in H as [H|H]; [discriminate|]. inversion H. }
  exists w'. split; [exact Hrun|]. split.
  - rewrite Hkeep. reflexivity.
  - vm_compute in Hrun. injection Hrun as <-. reflexivity.
Defined.

(** X13. A run, whatever its outcome, creates, changes or removes no
    file other than temporary files of its own: a path that is not a
    name [NamedTemporaryFile] can give with suffix [".mp4"] or
    ["_processed.mp4"] holds after the run what it held before. *)
Theorem run_touches_only_its_temporary_files (config : Config) (env : Env)
    (logo_path : string) (visit_client_id : Z) (q : string) (w : World) :
  (forall h, q <> temp_name env h +:+ ".mp4") ->
  (forall h, q <> temp_name env h +:+ "_processed.mp4") ->
  disk (snd (VideoProcessorService.process_video_by_visit_client_id config env
               logo_path visit_client_id w)) !! q
  = disk w !! q.
Proof.
  intros Hv Hp.
  assert (Huntil : keeps (file_untouched q)
            (VideoProcessorService.process_until_paths config env logo_path
               visit_client_id)).
  { unfold VideoProcessorService.process_until_paths.
    apply keeps_bind; [typeclasses eauto| |intros found].
    - intros w0. apply disk_untouched_file.
      apply (keeps_process_until_content config env visit_client_id w0).
    - apply keeps_bind; [typeclasses eauto| |intros; apply keeps_ret; typeclasses eauto].
      apply composition_file_untouched; assumption. }
  destruct (process_cases config env logo_path visit_client_id w)
    as [(e & w1 & E1 & ->)|(f & v & p & w1 & o & w2 & E1 & E2 & ->)].
  - specialize (Huntil w). rewrite E1 in Huntil. exact Huntil.
  - specialize (Huntil w). rewrite E1 in Huntil. cbn [snd] in *.
    pose proof (from_paths_disk_untouched config env visit_client_id f p w1) as Hfrom.
    rewrite E2 in Hfrom. cbn [snd] in Hfrom.
    apply until_paths_success in E1 as (c & w0 & _ & Ecomp).
    apply composition_paths in Ecomp as [[hv ->] [hp ->]].
    etrans; [apply cleanup_files_untouched|].
    + intros H. apply elem_of_cons in H as [[= H]|H]; [exact (Hv _ H)|].
      apply elem_of_cons in H as [[= H]|H]; [exact (Hp _ H)|]. inversion H.
    + unfold file_untouched in Huntil. rewrite <- Huntil.
      apply disk_untouched_file, Hfrom.
Qed.

Lemma logo_survives_a_run :
  disk (snd (VideoProcessorService.process_video_by_visit_client_id Scenario.config
               Scenario.quiet Scenario.logo_path 1 Scenario.world))
    !! Scenario.logo_path
  = Some [Byte.x89; Byte.x50].
Proof.
  rewrite (run_touches_only_its_temporary_files Scenario.config Scenario.quiet
             Scenario.logo_path 1 Scenario.logo_path Scenario.world).
  - reflexivity.
  - intros h H. vm_compute in H. discriminate.
  - intros h H. vm_compute in H. discriminate.
Defined.

(** X14. The calls [_update_visit_client_record] makes on the session:
    the lookup, then either a commit that returns (and the step returns),
    or a commit that raises followed by a rollback, or a rollback alone
    when the lookup raised or found nothing (and the step raises).  A
    commit is never retried, and a rollback is issued exactly when the
    step raises. *)
Theorem update_call_sequence (env : Env) (visit_client_id : Z)
    (processed_filename : string) (processed_url : option string) (w : World) :
  exists t,
    trace (snd (VideoProcessorService._update_visit_client_record env visit_client_id
                  processed_filename processed_url w))
    = trace w ++ EvQuery visit_client_id :: t /\
    UpdateCalls t
      (fst (VideoProcessorService._update_visit_client_record env visit_client_id
              processed_filename processed_url w)).
Proof.
  unfold VideoProcessorService._update_visit_client_record,
    VideoProcessorService._get_visit_client_by_id, session_query_first,
    session_commit, session_rollback, session_set, try_except, call, bind, raise.
  cbn.
  repeat step_in_goal; cbn; rewrite <- ?app_assoc; cbn;
    eexists; (split; [reflexivity|]); constructor.
Qed.

(** X15. When [session.rollback()] does not raise,
    [_update_visit_client_record] leaves no pending row in the session,
    whether it returns or raises; and when it raises, the table is as it
    was and the message starts with ["Error al actualizar registro: "]. *)
Theorem update_leaves_no_pending_rows (env : Env) (visit_client_id : Z)
    (processed_filename : string) (processed_url : option string) (w : World) :
  (forall h, raises env h EvRollback = None) ->
  let run := VideoProcessorService._update_visit_client_record env visit_client_id
               processed_filename processed_url w in
  session (snd run) = ∅ /\
  match fst run with
  | inl e => db (snd run) = db w /\
             exists cause, e = Exception ("Error al actualizar registro: " +:+ cause)
  | inr _ => True
  end.
Proof.
  intros Hrollback. cbv zeta.
  unfold VideoProcessorService._update_visit_client_record,
    VideoProcessorService._get_visit_client_by_id, session_query_first,
    session_commit, session_rollback, session_set, try_except, call, bind, raise.
  cbn.
  destruct (raises env (trace w) (EvQuery visit_client_id)); cbn; rewrite ?Hrollback; cbn.
  { split; [reflexivity|]. split; [reflexivity|eexists; reflexivity]. }
  destruct (session_view _ visit_client_id); cbn; rewrite ?Hrollback; cbn.
  2:{ split; [reflexivity|]. split; [reflexivity|eexists; reflexivity]. }
  destruct (raises env _ EvCommit); cbn; rewrite ?Hrollback; cbn.
  - split; [reflexivity|]. split; [reflexivity|eexists; reflexivity].
  - split; [reflexivity|exact I].
Qed.

Lemma failed_commit_drops_other_pending_rows :
  let w := set_session {[ 7 := Scenario.record_without_video ]} Scenario.world in
  let run := VideoProcessorService._update_visit_client_record Scenario.commit_fails 1
               "clip_processed.mp4" None w in
  session w !! 7 = Some Scenario.record_without_video /\
  session (snd run) = ∅ /\
  fst run = inl (Exception "Error al actualizar registro: DB Error").
Proof.
  cbv zeta.
  destruct (update_leaves_no_pending_rows Scenario.commit_fails 1 "clip_processed.mp4"
              None (set_session {[ 7 := Scenario.record_without_video ]} Scenario.world))
    as [Hsession _].
  { intros h. reflexivity. }
  split; [reflexivity|]. split; [exact Hsession|]. vm_compute. reflexivity.
Defined.

(** X16. When there is no file at the path it is given,
    [_upload_processed_video] raises with the prefix
    ["Error al subir video procesado: "] and has called nothing but
    [open]: the store is not contacted. *)
Theorem upload_of_missing_file (config : Config) (env : Env)
    (video_path filename : string) (w : World) :
  disk w !! video_path = None ->
  exists cause,
    VideoProcessorService._upload_processed_video config env video_path filename w
    = (inl (Exception ("Error al subir video procesado: " +:+ cause)),
       log (EvOpen video_path) w).
Proof.
  intros Hmissing.
  unfold VideoProcessorService._upload_processed_video, open_rb, try_except, call,
    bind, raise.
  destruct (raises env (trace w) (EvOpen video_path)) as [e|].
  - eexists. reflexivity.
  - cbn [log disk]. rewrite Hmissing. eexists. reflexivity.
Qed.

Lemma upload_from_empty_disk :
  exists cause,
    VideoProcessorService._upload_processed_video Scenario.config Scenario.quiet
      "/tmp/gone_processed.mp4" "clip_processed.mp4" Scenario.world
    = (inl (Exception ("Error al subir video procesado: " +:+ cause)),
       log (EvOpen "/tmp/gone_processed.mp4") Scenario.world).
Proof.
  apply (upload_of_missing_file Scenario.config Scenario.quiet
           "/tmp/gone_processed.mp4" "clip_processed.mp4" Scenario.world).
  reflexivity.
Defined.

(** X17. When the logo is not on disk, [_process_video_with_logo]
    raises ["Error al procesar video: Logo no encontrado en: <path>"]
    only after it has written the downloaded bytes to its first temporary
    file: that file is on disk, with the whole video, when the step
    raises.  Nothing was encoded and no second file was created. *)
Theorem missing_logo_leaves_download_on_disk (env : Env) (logo_path : string)
    (video_content : bytes) (filename : string) (w : World) :
  let temp_video_path := temp_name env (trace w) +:+ ".mp4" in
  let calls := [EvNamedTemporaryFile ".mp4"; EvWrite temp_video_path;
                EvVideoFileClip temp_video_path] in
  raises env (trace w) (EvNamedTemporaryFile ".mp4") = None ->
  raises env (trace w ++ [EvNamedTemporaryFile ".mp4"]) (EvWrite temp_video_path) = None ->
  raises env (trace w ++ [EvNamedTemporaryFile ".mp4"; EvWrite temp_video_path])
    (EvVideoFileClip temp_video_path) = None ->
  disk w !! logo_path = None -> logo_path <> temp_video_path ->
  VideoProcessorService._process_video_with_logo env logo_path video_content filename w
  = (inl (Exception ("Error al procesar video: Logo no encontrado en: " +:+ logo_path)),
     {| db := db w; session := session w;
        disk := <[temp_video_path := video_content]> (disk w);
        trace := trace w ++ calls |}).
Proof.
  intros temp_video_path calls H1 H2 H3 Hlogo Hne.
  unfold VideoProcessorService._process_video_with_logo, NamedTemporaryFile,
    file_write, os_path_exists, try_except, call, bind, raise, ret.
  fold temp_video_path. rewrite H1. cbn [log set_disk trace disk db session].
  rewrite H2. cbn [log set_disk trace disk db session].
  rewrite <- !app_assoc. cbn [app]. rewrite H3.
  cbn [log set_disk trace disk db session].
  rewrite insert_insert_eq.
  rewrite lookup_insert_ne by (apply not_eq_sym, Hne). rewrite Hlogo.
  rewrite bool_decide_eq_false_2 by (intros [? [=]]).
  cbn [negb]. unfold calls, log, set_disk. cbn [trace db session disk].
  rewrite <- !app_assoc. reflexivity.
Qed.

Lemma composition_without_the_logo :
  exists w',
    VideoProcessorService._process_video_with_logo Scenario.quiet Scenario.logo_path
      [Byte.x00; Byte.x01] "clip.mp4" Scenario.world_without_logo
    = (inl (Exception ("Error al procesar video: Logo no encontrado en: "
                       +:+ Scenario.logo_path)), w') /\
    disk w' !! "/tmp/tmpab12.mp4" = Some [Byte.x00; Byte.x01].
Proof.
  eexists. split.
  - apply (missing_logo_leaves_download_on_disk Scenario.quiet Scenario.logo_path
             [Byte.x00; Byte.x01] "clip.mp4" Scenario.world_without_logo);
      try reflexivity.
    intros H. vm_compute in H. discriminate.
  - reflexivity.
Defined.

Lemma join_injective (folder a b : string) :
  CloudStorageService.join folder a = CloudStorageService.join folder b -> a = b.
Proof.
  unfold CloudStorageService.join. intros H.
  apply append_inv_head in H. apply (append_inv_head "/") in H. exact H.
Qed.

(** X18. The session is committed or rolled back only after the upload:
    either every step up to and including [_upload_processed_video]
    returned, or the run raises, it called neither [session.commit()] nor
    [session.rollback()], and the table and the pending rows of the
    session are as they were. *)
Theorem no_persist_before_upload (config : Config) (env : Env) (logo_path : string)
    (visit_client_id : Z) (w : World) :
  let run := VideoProcessorService.process_video_by_visit_client_id config env logo_path
               visit_client_id w in
  (exists f v p w1 url w2,
      VideoProcessorService.process_until_paths config env logo_path visit_client_id w
      = (inr (f, (v, p)), w1) /\
      VideoProcessorService._upload_processed_video config env p
        (_generate_processed_filename f) w1 = (inr url, w2)) \/
  ((exists e, fst run = inl e) /\
   emits (fun ev => ~ is_persist ev) w (snd run) /\
   store_untouched w (snd run)).
Proof.
  cbv zeta.
  pose proof (emits_process_until_paths config env logo_path visit_client_id w) as Hcalls.
  pose proof (keeps_process_until_paths config env logo_path visit_client_id w) as Hstore.
  destruct (process_cases config env logo_path visit_client_id w)
    as [(e & w1 & E1 & ->)|(f & v & p & w1 & o & w2 & E1 & E2 & ->)].
  - right. rewrite E1 in Hcalls, Hstore. cbn [fst snd] in *.
    split; [eauto|]. split; [|exact Hstore].
    eapply emits_weaken; [|exact Hcalls]. intros ev [_ H]. exact H.
  - rewrite E1 in Hcalls, Hstore. cbn [fst snd] in *.
    revert E2. unfold VideoProcessorService.process_from_paths, bind. cbv zeta.
    pose proof (emits_upload_processed_video config env p f w1) as Hup.
    pose proof (keeps_upload_processed_video config env p
                  (_generate_processed_filename f) w1) as [Hupstore _].
    destruct (VideoProcessorService._upload_processed_video config env p
                (_generate_processed_filename f) w1) as [[e|url] wu] eqn:Eup.
    + intros [= <- <-]. right. cbn [VideoProcessorService.reraise_wrapped snd] in *.
      split; [eauto|]. split.
      * etrans; [eapply emits_weaken; [|exact Hcalls]; intros ev [_ H]; exact H|].
        etrans; [eapply emits_weaken; [|exact Hup]; intros ev [H _]; exact H|].
        eapply emits_weaken; [|apply emits_cleanup_temp_files].
        intros ev [q ->] [?|?]; discriminate.
      * etrans; [exact Hstore|]. etrans; [exact Hupstore|].
        apply keeps_cleanup_temp_files.
    + intros _. left. exists f, v, p, w1, url, wu. split; [exact E1|exact Eup].
Qed.

(** X19. Whatever a run uploads, it uploads for the record it was asked
    to process: as ["video/mp4"], to [BUCKET_FOLDER], under the name
    derived from the record's file name, which is never the record's own
    file name in that folder. *)
Theorem run_uploads_only_the_derived_name (config : Config) (env : Env)
    (logo_path : string) (visit_client_id : Z) (w : World) :
  emits (uploads_derived_name config w visit_client_id) w
    (snd (VideoProcessorService.process_video_by_visit_client_id config env logo_path
            visit_client_id w)).
Proof.
  assert (Hother : forall ev, ~ is_blob_upload ev ->
                              uploads_derived_name config w visit_client_id ev).
  { intros ev Hnot path ct data ->. exfalso. apply Hnot. eexists _, _, _. reflexivity. }
  pose proof (emits_process_until_paths config env logo_path visit_client_id w) as Hcalls.
  destruct (process_cases config env logo_path visit_client_id w)
    as [(e & w1 & E1 & ->)|(f & v & p & w1 & o & w2 & E1 & E2 & ->)].
  - rewrite E1 in Hcalls. cbn [snd] in *.
    eapply emits_weaken; [|exact Hcalls]. intros ev [H _]. apply Hother, H.
  - rewrite E1 in Hcalls. cbn [snd] in *.
    apply until_paths_success in E1 as (c & w0 & Econtent & _).
    apply until_content_success in Econtent as (r0 & _ & Hview & Hname & _).
    assert (Hfrom : keeps (emits (uploads_derived_name config w visit_client_id))
                      (VideoProcessorService.process_from_paths config env
                         visit_client_id f p)).
    { unfold VideoProcessorService.process_from_paths. cbv zeta.
      apply keeps_bind; [typeclasses eauto| |intros url].
      - eapply keeps_emits_weaken; [|apply emits_upload_processed_video].
        intros ev [_ H] path ct data Hev.
        destruct (H path ct data Hev) as [-> ->]. split; [reflexivity|].
        exists r0, f. split; [exact Hview|]. split; [exact Hname|].
        split; [reflexivity|].
        intros Heq. apply join_injective in Heq.
        exact (generate_changes_name f Heq).
      - apply keeps_bind; [typeclasses eauto| |intros; apply keeps_ret; typeclasses eauto].
        eapply keeps_emits_weaken; [|apply emits_update_visit_client_record].
        exact Hother. }
    specialize (Hfrom w1). rewrite E2 in Hfrom. cbn [snd] in Hfrom.
    etrans; [eapply emits_weaken; [|exact Hcalls]; intros ev [H _]; apply Hother, H|].
    etrans; [exact Hfrom|].
    eapply emits_weaken; [|apply emits_cleanup_temp_files].
    intros ev [q ->]. apply Hother. intros (? & ? & ? & ?). discriminate.
Qed.

(* ===================================================================== *)
(** ** The endpoint                                                       *)
(* ===================================================================== *)

Section ControllerFacts.

Variable config : Config.
Variable env : Env.
Variable logo_path : string.
Variable interp : Interpreter.

Local Abbreviation process_video := (VideoProcessorController.process_video config env logo_path interp).
Local Abbreviation service := (VideoProcessorService.process_video_by_visit_client_id config env logo_path).

Lemma process_video_handled request_json w :
  exists response w',
    process_video request_json w = (inr response, w') /\
    Handled config env logo_path w response w'.
Proof.
  unfold VideoProcessorController.process_video, VideoProcessorController.pure,
    try_except, bind, ret, raise.
  destruct request_json as [e|pubsub_message].
  { eexists _, _. split; [reflexivity|constructor]. }
  destruct (negb (Py.truth pubsub_message)).
  { eexists _, _. split; [reflexivity|constructor]. }
  destruct (Py.contains interp "message" pubsub_message) as [e|[]]; cbn [negb].
  1,3: eexists _, _; (split; [reflexivity|constructor]).
  destruct (Py.getitem interp pubsub_message "message") as [e|message].
  { eexists _, _. split; [reflexivity|constructor]. }
  destruct (Py.contains interp "data" message) as [e|[]]; cbn [negb].
  1,3: eexists _, _; (split; [reflexivity|constructor]).
  destruct (VideoProcessorController.decode_data interp message) as [e|event_data].
  { eexists _, _. split; [reflexivity|constructor]. }
  destruct (Py.get interp event_data "scheduled_visit_client_id") as [e|v].
  { eexists _, _. split; [reflexivity|constructor]. }
  destruct (negb (Py.truth v)).
  { eexists _, _. split; [reflexivity|constructor]. }
  destruct (Py.int interp v) as [n| |e].
  2,3: eexists _, _; (split; [reflexivity|constructor]).
  destruct (service n w) as [[e|result] w'] eqn:Hrun.
  - eexists _, _. split; [reflexivity|]. eapply failed. exact Hrun.
  - eexists _, _. split; [reflexivity|]. eapply succeeded. exact Hrun.
Qed.

(** The stages an envelope with an event passes, up to the identifier. *)
Lemma process_video_carries pubsub_message identifier w :
  carries interp pubsub_message identifier ->
  process_video (inr pubsub_message) w =
    let v := default JNull identifier in
    if negb (Py.truth v) then
      (inr (VideoProcessorController.bad_request "Evento sin scheduled_visit_client_id"), w)
    else
      match Py.int interp v with
      | IntValueError =>
          (inr (VideoProcessorController.bad_request
                  "scheduled_visit_client_id debe ser un número entero"), w)
      | IntRaises e =>
          (inr (VideoProcessorController.server_error
                  ("Error al procesar video: " +:+ str e)), w)
      | IntOk n =>
          match service n w with
          | (inl e, w') =>
              (inr (VideoProcessorController.server_error
                      ("Error al procesar video: " +:+ str e)), w')
          | (inr result, w') => (inr (VideoProcessorController.processed result), w')
          end
      end.
Proof.
  intros (items & mitems & data & eitems & -> & Hmessage & Hdata & Hdecode & <-).
  unfold VideoProcessorController.process_video, VideoProcessorController.pure,
    VideoProcessorController.decode_data, try_except, bind, ret, raise.
  assert (Htruth : Py.truth (JDict items) = true).
  { destruct items; [discriminate|reflexivity]. }
  rewrite Htruth. cbn [negb Py.contains Py.getitem Py.get].
  rewrite Hmessage.
  rewrite bool_decide_eq_true_2 by eauto. cbn [negb Py.contains Py.getitem].
  rewrite Hdata.
  rewrite bool_decide_eq_true_2 by eauto. cbn [negb].
  rewrite Hdecode. cbn [Py.get]. cbv zeta.
  destruct (negb (Py.truth _)); [reflexivity|].
  destruct (Py.int interp _) as [n| |e]; try reflexivity.
  destruct (service n w) as [[e|result] w']; reflexivity.
Qed.

Lemma service_failure_message id w e w' :
  service id w = (inl e, w') ->
  exists cause, e = Exception ("Error al procesar video: " +:+ cause).
Proof.
  destruct (process_cases config env logo_path id w)
    as [(e1 & w1 & _ & ->)|(f & v & p & w1 & o & w2 & _ & _ & ->)].
  - intros [= <- _]. eexists. reflexivity.
  - destruct o as [e2|r]; cbn; [|discriminate].
    intros [= <- _]. eexists. reflexivity.
Qed.

End ControllerFacts.


(** X21. A request answered with 400 has not reached the service:
    nothing was called, and the world is the one before the request. *)
Theorem bad_request_calls_nothing (config : Config) (env : Env) (logo_path : string)
    (interp : Interpreter) (request_json : Exn + JSON) (w : World)
    (response : Response) (w' : World) :
  VideoProcessorController.process_video config env logo_path interp request_json w
  = (inr response, w') ->
  status_code response = 400 -> w' = w.
Proof.
  destruct (process_video_handled config env logo_path interp request_json w)
    as (response0 & w0 & Hrun & Hhandled).
  rewrite Hrun. intros [= <- <-].
  destruct Hhandled; cbn; try discriminate. reflexivity.
Qed.

Lemma request_without_body :
  exists response,
    VideoProcessorController.process_video Scenario.config Scenario.quiet
      Scenario.logo_path PubSub.interp
      (inl (Exception "400 Bad Request")) Scenario.world
    = (inr response, Scenario.world) /\
    body_message response = "Petición sin contenido JSON".
Proof.
  assert (Hrun : exists response w',
             VideoProcessorController.process_video Scenario.config Scenario.quiet
               Scenario.logo_path PubSub.interp
               (inl (Exception "400 Bad Request")) Scenario.world
             = (inr response, w') /\
             status_code response = 400 /\
             body_message response = "Petición sin contenido JSON")
    by (eexists _, _; vm_compute; repeat split).
  destruct Hrun as (response & w' & Hrun & Hstatus & Hmessage).
  exists response. split; [|exact Hmessage].
  rewrite Hrun.
  rewrite (bad_request_calls_nothing _ _ _ _ _ _ _ _ Hrun Hstatus). reflexivity.
Defined.

(** X22. A request answered with 200 was processed: the service
    returned for some identifier, the response carries its result, and
    the committed row of that identifier is marked ["Procesado"] with the
    processed name the response reports. *)
Theorem ok_response_means_processed (config : Config) (env : Env) (logo_path : string)
    (interp : Interpreter) (request_json : Exn + JSON) (w : World)
    (response : Response) (w' : World) :
  VideoProcessorController.process_video config env logo_path interp request_json w
  = (inr response, w') ->
  status_code response = 200 ->
  exists visit_client_id result r,
    VideoProcessorService.process_video_by_visit_client_id config env logo_path
      visit_client_id w = (inr result, w') /\
    body_data response = Some result /\
    res_visit_client_id result = visit_client_id /\
    res_status result = "Procesado" /\
    db w' !! visit_client_id = Some r /\
    db_models.file_status r = Some "Procesado" /\
    db_models.filename_processed r = Some (res_processed_filename result).
Proof.
  destruct (process_video_handled config env logo_path interp request_json w)
    as (response0 & w0 & Hrun & Hhandled).
  rewrite Hrun. intros [= <- <-].
  destruct Hhandled as [message|message|id e w' Hservice|id result w' Hservice]; cbn;
    try discriminate.
  intros _.
  destruct (process_success_inversion _ _ _ _ _ _ _ Hservice)
    as (r0 & f & url & now & _ & _ & _ & _ & _ & -> & Hdb & _).
  eexists id, _,
    (VideoProcessorService.mark_processed r0 (_generate_processed_filename f) url now).
  split; [exact Hservice|]. repeat split.
  rewrite Hdb. apply lookup_union_Some_l, lookup_insert_eq.
Qed.

Lemma pushed_event_is_processed :
  exists response w' r,
    VideoProcessorController.process_video Scenario.config Scenario.quiet
      Scenario.logo_path PubSub.interp
      (inr (PubSub.envelope (JStr "eyJzY2hlZHVsZWRfdmlzaXRfY2xpZW50X2lkIjogMX0=")))
      Scenario.world
    = (inr response, w') /\
    status_code response = 200 /\
    db w' !! 1 = Some r /\ db_models.file_status r = Some "Procesado".
Proof.
  assert (Hrun : exists response w',
             VideoProcessorController.process_video Scenario.config Scenario.quiet
               Scenario.logo_path PubSub.interp
               (inr (PubSub.envelope
                       (JStr "eyJzY2hlZHVsZWRfdmlzaXRfY2xpZW50X2lkIjogMX0=")))
               Scenario.world
             = (inr response, w') /\
             status_code response = 200 /\
             option_map res_visit_client_id (body_data response) = Some 1)
    by (eexists _, _; vm_compute; repeat split).
  destruct Hrun as (response & w' & Hrun & Hstatus & Hid).
  destruct (ok_response_means_processed _ _ _ _ _ _ _ _ Hrun Hstatus)
    as (id & result & r & _ & Hdata & Hresult & _ & Hrow & Hmarked & _).
  rewrite Hdata in Hid. cbn in Hid. injection Hid as Hid.
  rewrite Hresult in Hid. subst id.
  exists response, w', r. repeat split; assumption.
Defined.

(** X23. An envelope whose event carries a truthy identifier that
    [int] converts reaches the service with that integer, and the
    response is the service's outcome: 200 with its result, or 500 with
    its message behind one more ["Error al procesar video: "], the
    message of the service starting with that prefix already; a record
    that does not exist is answered with 500 as well. *)
Theorem accepted_request_runs_the_service (config : Config) (env : Env)
    (logo_path : string) (interp : Interpreter) (pubsub_message v : JSON) (n : Z)
    (w : World) :
  carries interp pubsub_message (Some v) ->
  Py.truth v = true -> Py.int interp v = IntOk n ->
  match VideoProcessorService.process_video_by_visit_client_id config env logo_path n w
  with
  | (inr result, w') =>
      VideoProcessorController.process_video config env logo_path interp
        (inr pubsub_message) w
      = (inr (VideoProcessorController.processed result), w')
  | (inl e, w') =>
      exists cause,
        e = Exception ("Error al procesar video: " +:+ cause) /\
        VideoProcessorController.process_video config env logo_path interp
          (inr pubsub_message) w
        = (inr (VideoProcessorController.server_error
                  ("Error al procesar video: Error al procesar video: " +:+ cause)), w')
  end.
Proof.
  intros Hcarries Htruth Hint.
  rewrite (process_video_carries config env logo_path interp _ _ w Hcarries).
  cbn [default from_option id]. cbv zeta. rewrite Htruth, Hint. cbn [negb].
  destruct (VideoProcessorService.process_video_by_visit_client_id _ _ _ n w)
    as [[e|result] w'] eqn:Hservice; [|reflexivity].
  destruct (service_failure_message _ _ _ _ _ _ _ Hservice) as [cause ->].
  exists cause. split; [reflexivity|]. reflexivity.
Qed.

Lemma event_for_an_unknown_record :
  exists w',
    VideoProcessorController.process_video Scenario.config Scenario.quiet
      Scenario.logo_path PubSub.interp
      (inr (PubSub.envelope (JStr "eyJzY2hlZHVsZWRfdmlzaXRfY2xpZW50X2lkIjogNDA0fQ==")))
      Scenario.world
    = (inr (VideoProcessorController.server_error
              ("Error al procesar video: Error al procesar video: "
               +:+ "No se encontró registro de cliente en visita con ID: 404")), w').
Proof.
  pose proof (accepted_request_runs_the_service Scenario.config Scenario.quiet
                Scenario.logo_path PubSub.interp
                (PubSub.envelope (JStr "eyJzY2hlZHVsZWRfdmlzaXRfY2xpZW50X2lkIjogNDA0fQ=="))
                (JInt 404) 404 Scenario.world) as H.
  assert (Hservice : exists w',
             VideoProcessorService.process_video_by_visit_client_id Scenario.config
               Scenario.quiet Scenario.logo_path 404 Scenario.world
             = (inl (Exception
                       ("Error al procesar video: "
                        +:+ "No se encontró registro de cliente en visita con ID: 404")),
                w'))
    by (eexists; vm_compute; reflexivity).
  destruct Hservice as [w' Hservice]. rewrite Hservice in H.
  destruct H as (cause & Hcause & Hrun).
  - eexists _, _, _, _. repeat split.
  - reflexivity.
  - reflexivity.
  - exists w'. rewrite Hrun. vm_compute in Hcause. injection Hcause as Hcause.
    subst cause. reflexivity.
Defined.

(** X24. An event whose identifier is missing, [null], [0], [0.0],
    [false], the empty string, or an empty list or object is answered
    with 400 ["Evento sin scheduled_visit_client_id"], the identifier 0
    included; nothing is called. *)
Theorem falsy_identifier_is_missing (config : Config) (env : Env) (logo_path : string)
    (interp : Interpreter) (pubsub_message : JSON) (identifier : option JSON)
    (w : World) :
  carries interp pubsub_message identifier ->
  Py.truth (default JNull identifier) = false ->
  VideoProcessorController.process_video config env logo_path interp
    (inr pubsub_message) w
  = (inr (VideoProcessorController.bad_request "Evento sin scheduled_visit_client_id"), w).
Proof.
  intros Hcarries Htruth.
  rewrite (process_video_carries config env logo_path interp _ _ w Hcarries).
  cbv zeta. rewrite Htruth. reflexivity.
Qed.

Lemma event_for_record_zero :
  VideoProcessorController.process_video Scenario.config Scenario.quiet
    Scenario.logo_path PubSub.interp
    (inr (PubSub.envelope (JStr "eyJzY2hlZHVsZWRfdmlzaXRfY2xpZW50X2lkIjogMH0=")))
    Scenario.world
  = (inr (VideoProcessorController.bad_request "Evento sin scheduled_visit_client_id"),
     Scenario.world).
Proof.
  apply (falsy_identifier_is_missing Scenario.config Scenario.quiet Scenario.logo_path
           PubSub.interp _ (Some (JInt 0))).
  - eexists _, _, _, _. repeat split.
  - reflexivity.
Defined.

(** X25. A truthy identifier that [int] cannot convert is answered
    without calling the service, with 400 when [int] raises [ValueError]
    (a string that is no integer literal, a NaN), but with 500 when it
    raises anything else: a non-empty list or object as identifier is a
    server error, not a bad request. *)
Theorem unconvertible_identifier (config : Config) (env : Env) (logo_path : string)
    (interp : Interpreter) (pubsub_message v : JSON) (w : World) :
  carries interp pubsub_message (Some v) ->
  Py.truth v = true ->
  match Py.int interp v with
  | IntOk _ => True
  | IntValueError =>
      VideoProcessorController.process_video config env logo_path interp
        (inr pubsub_message) w
      = (inr (VideoProcessorController.bad_request
                "scheduled_visit_client_id debe ser un número entero"), w)
  | IntRaises e =>
      VideoProcessorController.process_video config env logo_path interp
        (inr pubsub_message) w
      = (inr (VideoProcessorController.server_error
                ("Error al procesar video: " +:+ str e)), w) /\
      (v = JFloat FloatInf \/ (exists items, v = JList items) \/
       (exists items, v = JDict items))
  end.
Proof.
  intros Hcarries Htruth.
  rewrite (process_video_carries config env logo_path interp _ _ w Hcarries).
  cbn [default from_option id]. cbv zeta. rewrite Htruth. cbn [negb].
  destruct (Py.int interp v) as [n| |e] eqn:Hint; [exact I|reflexivity|].
  split; [reflexivity|].
  destruct v as [|b|k|[q| |]|s|items|items]; cbn in Hint, Htruth; try discriminate;
    try (destruct (int_of_str interp s); discriminate); eauto.
Qed.

Lemma event_with_a_list_identifier :
  VideoProcessorController.process_video Scenario.config Scenario.quiet
    Scenario.logo_path PubSub.interp
    (inr (PubSub.envelope (JStr "eyJzY2hlZHVsZWRfdmlzaXRfY2xpZW50X2lkIjogWzddfQ==")))
    Scenario.world
  = (inr (VideoProcessorController.server_error
            "Error al procesar video: unsupported operand for int"), Scenario.world).
Proof.
  apply (unconvertible_identifier Scenario.config Scenario.quiet Scenario.logo_path
           PubSub.interp _ (JList [JInt 7]) Scenario.world).
  - eexists _, _, _, _. repeat split.
  - reflexivity.
Defined.
